(** * jChatSystem: the channel component of the chat server

    A shallow embedding of [ChannelComponent]
    (jchat_server/src/components/channel_component.cpp): the directory of
    channels, the Join and Leave handlers, the disconnect sweep and the
    lifecycle hooks, followed by the properties of the specification that
    concern them.

    The component is modelled sequentially: one call runs to its end before
    the next one starts, so the mutexes of the source do not appear as data.
    The one place where a mutex matters for the sequential behaviour is an
    [unlock] reached through a handle that has just been reset; that is
    modelled as the fault [NullDeref]. *)

From Stdlib Require Import Ascii.
From stdpp Require Import base option list gmap strings sorting.

Open Scope string_scope.
Open Scope list_scope.
Open Scope N_scope.

(** ** Identities

    A connection is identified by the address of its [RemoteChatClient]
    and a user by the address of the [ChatUser] record that a
    [std::shared_ptr<ChatUser>] points to. *)

Definition Client := N.
Definition UserPtr := N.

(** ** Enumerations of the protocol *)

(** Modelled from the spec: the component tags of [ComponentType]; their
    header is not among the sources. *)
Inductive ComponentType :=
| kComponentType_User
| kComponentType_Channel.

(** Modelled from the spec: the message types of the channel component.
    The header channel_message_type.h among the sources declares only
    [kChannelMessageType_Max]; the four others are the ones the handler
    names. *)
Inductive ChannelMessageType :=
| kChannelMessageType_JoinChannel
| kChannelMessageType_JoinChannel_Complete
| kChannelMessageType_LeaveChannel
| kChannelMessageType_LeaveChannel_Complete
| kChannelMessageType_Max.

(** Modelled from the spec: the result codes ("Result codes" of section 4.2);
    their header is not among the sources. *)
Inductive ChannelMessageResult :=
| kChannelMessageResult_Ok
| kChannelMessageResult_ChannelCreated
| kChannelMessageResult_NotIdentified
| kChannelMessageResult_InvalidChannelName
| kChannelMessageResult_AlreadyInChannel
| kChannelMessageResult_NotInChannel
| kChannelMessageResult_UserJoined
| kChannelMessageResult_UserLeft.

#[global] Instance ComponentType_eq_dec : EqDecision ComponentType.
Proof. solve_decision. Defined.
#[global] Instance ChannelMessageType_eq_dec : EqDecision ChannelMessageType.
Proof. solve_decision. Defined.
#[global] Instance ChannelMessageResult_eq_dec : EqDecision ChannelMessageResult.
Proof. solve_decision. Defined.

(** ** Buffers

    Modelled from the spec: [TypedBuffer] (section 6, "Buffer encode/decode
    primitives") is a sequence of typed fields. The only 16-bit fields this
    component writes are result codes, so such a field carries the
    enumerator. A read returns nothing on a missing or ill-typed field. *)
Inductive Field :=
| FUInt16 (v : ChannelMessageResult)
| FUInt32 (v : N)
| FString (s : string).

Definition TypedBuffer := list Field.

#[global] Instance Field_eq_dec : EqDecision Field.
Proof. solve_decision. Defined.

Definition CreateBuffer : TypedBuffer := [].

Definition WriteUInt16 (buffer : TypedBuffer) (v : ChannelMessageResult) : TypedBuffer :=
  buffer ++ [FUInt16 v].

(** The argument is a [size_t]; the field keeps its low 32 bits. *)
Definition WriteUInt32 (buffer : TypedBuffer) (v : N) : TypedBuffer :=
  buffer ++ [FUInt32 (v mod 2 ^ 32)].

Definition WriteString (buffer : TypedBuffer) (s : string) : TypedBuffer :=
  buffer ++ [FString s].

Definition ReadString (buffer : TypedBuffer) : option (string * TypedBuffer) :=
  match buffer with
  | FString s :: rest => Some (s, rest)
  | _ => None
  end.

(** ** Strings *)

Fixpoint starts_with (sub s : string) : bool :=
  match sub, s with
  | EmptyString, _ => true
  | String a sub', String b s' => bool_decide (a = b) && starts_with sub' s'
  | String _ _, EmptyString => false
  end.

(** Modelled from the spec: [String::Contains] of string.hpp, which is not
    among the sources; the channel name "must contain the literal
    character #". It is substring search. *)
Fixpoint String_Contains (s sub : string) : bool :=
  starts_with sub s ||
  match s with
  | EmptyString => false
  | String _ s' => String_Contains s' sub
  end.

(** ** Users and channels *)

Module ChatUser.
Record t := Build {
  Username : string;
  Hostname : string;
  Identified : bool;
  Enabled : bool
}.
End ChatUser.

(** The records the shared pointers point to. They belong to the user
    component, which may change them between two calls; this component
    only reads them. *)
Definition Heap := UserPtr → ChatUser.t.

Module ChatChannel.
(** Modelled from the spec: the header of [ChatChannel] is not among the
    sources. [Clients] ("members") and [Operators] map a connection to its
    user, with unique keys and a stable enumeration order, taken here to be
    the ascending key order of a [std::map]. *)
Record t := Build {
  Name : string;
  Enabled : bool;
  Operators : gmap Client UserPtr;
  Clients : gmap Client UserPtr
}.

Definition set_Enabled (b : bool) (c : t) : t :=
  Build (Name c) b (Operators c) (Clients c).
Definition set_Operators (m : gmap Client UserPtr) (c : t) : t :=
  Build (Name c) (Enabled c) m (Clients c).
Definition set_Clients (m : gmap Client UserPtr) (c : t) : t :=
  Build (Name c) (Enabled c) (Operators c) m.
End ChatChannel.

(** Iteration over a map: the entries in ascending key order. *)
Definition key_le (x y : Client * UserPtr) : Prop := (x.1 ≤ y.1)%N.

#[global] Instance key_le_dec : RelDecision key_le.
Proof. intros x y. unfold key_le. apply _. Defined.

Definition entries (m : gmap Client UserPtr) : list (Client * UserPtr) :=
  merge_sort key_le (map_to_list m).

(** Iterators, as far as the source compares them: [find] gives the
    position of a key or the end of its own container. *)
Inductive MapName := ClientsMap | OperatorsMap.

Inductive iterator :=
| iterator_at (owner : MapName) (key : Client)
| iterator_end (owner : MapName).

#[global] Instance MapName_eq_dec : EqDecision MapName.
Proof. solve_decision. Defined.
#[global] Instance iterator_eq_dec : EqDecision iterator.
Proof. solve_decision. Defined.

Definition find (owner : MapName) (m : gmap Client UserPtr) (key : Client) : iterator :=
  match m !! key with
  | Some _ => iterator_at owner key
  | None => iterator_end owner
  end.

(** ** Collaborators *)

Module UserComponent.
Record t := Build {
  GetChatUser : Client → option UserPtr
}.
End UserComponent.

Module ChatServer.
(** [GetComponent_User] is [GetComponent(kComponentType_User, _)]: the user
    component, when the server has one. *)
Record t := Build {
  GetComponent_User : option UserComponent.t
}.
End ChatServer.

(** ** What a call does to the outside *)

Inductive Effect :=
| SendUnicast (client : Client) (component : ComponentType)
    (message_type : ChannelMessageType) (buffer : TypedBuffer)
| OnJoinCompleted (result : ChannelMessageResult) (user : UserPtr)
| OnLeaveCompleted (result : ChannelMessageResult) (user : UserPtr)
| OnChannelCreated (channel : ChatChannel.t)
| OnChannelJoined (channel : ChatChannel.t) (user : UserPtr)
| OnChannelLeft (channel : ChatChannel.t) (user : UserPtr).

(** A call either returns, or dereferences an empty [shared_ptr]. Both
    carry the directory as the call left it and the effects in the order
    they happened. *)
Inductive Outcome (A : Type) :=
| Returned (result : A) (channels_ : list ChatChannel.t) (log : list Effect)
| NullDeref (channels_ : list ChatChannel.t) (log : list Effect).
Arguments Returned {A} result channels_ log.
Arguments NullDeref {A} channels_ log.

Definition outcome_channels {A} (o : Outcome A) : list ChatChannel.t :=
  match o with
  | Returned _ channels_ _ => channels_
  | NullDeref channels_ _ => channels_
  end.

Definition outcome_log {A} (o : Outcome A) : list Effect :=
  match o with
  | Returned _ _ log => log
  | NullDeref _ log => log
  end.

(** ** The loops over a map *)

(** [for (auto &pair : m) if (pair.second->Enabled) { WriteString(Username);
    WriteString(Hostname); }] *)
Definition write_enabled_users (users : Heap) (buffer : TypedBuffer)
    (m : gmap Client UserPtr) : TypedBuffer :=
  foldl (λ buffer pair,
           if ChatUser.Enabled (users pair.2)
           then WriteString (WriteString buffer (ChatUser.Username (users pair.2)))
                            (ChatUser.Hostname (users pair.2))
           else buffer)
        buffer (entries m).

(** [for (auto &pair : m) if (pair.second->Enabled) SendUnicast(pair.first,
    kComponentType_Channel, message_type, buffer);] *)
Definition send_to_enabled (users : Heap) (m : gmap Client UserPtr)
    (message_type : ChannelMessageType) (buffer : TypedBuffer) : list Effect :=
  foldl (λ log pair,
           if ChatUser.Enabled (users pair.2)
           then log ++ [SendUnicast pair.1 kComponentType_Channel message_type buffer]
           else log)
        [] (entries m).

(** The first enabled channel of that name, with its position. *)
Definition find_channel (channels_ : list ChatChannel.t) (channel_name : string)
    : option (nat * ChatChannel.t) :=
  list_find (λ channel, ChatChannel.Enabled channel = true
                        ∧ ChatChannel.Name channel = channel_name) channels_.

(** ** ChannelComponent

    The state of the component is [channels_], the vector of channels.
    [server_] is taken to be set ([Initialize] has run). *)

Section Handle.
Variable server_ : ChatServer.t.
Variable users : Heap.

Definition reply (client : Client) (message_type : ChannelMessageType)
    (result : ChannelMessageResult) : Effect :=
  SendUnicast client kComponentType_Channel message_type
    (WriteUInt16 CreateBuffer result).

(** The branch [message_type == kChannelMessageType_JoinChannel]. *)
Definition Handle_JoinChannel (channels_ : list ChatChannel.t) (client : Client)
    (buffer : TypedBuffer) : Outcome bool :=
  match ReadString buffer with
  | None => Returned false channels_ []
  | Some (channel_name, _) =>
  match ChatServer.GetComponent_User server_ with
  | None => Returned false channels_ []
  | Some user_component =>
  match UserComponent.GetChatUser user_component client with
  | None => Returned false channels_ []
  | Some chat_user =>
    if negb (ChatUser.Identified (users chat_user)) then
      Returned true channels_
        [reply client kChannelMessageType_JoinChannel_Complete
           kChannelMessageResult_NotIdentified;
         OnJoinCompleted kChannelMessageResult_NotIdentified chat_user]
    else if negb (String_Contains channel_name "#") then
      Returned true channels_
        [reply client kChannelMessageType_JoinChannel_Complete
           kChannelMessageResult_InvalidChannelName;
         OnJoinCompleted kChannelMessageResult_InvalidChannelName chat_user]
    else
      match find_channel channels_ channel_name with
      | None =>
        (* make_shared<ChatChannel>(), then Name, Operators[&client] and
           Clients[&client] *)
        let chat_channel :=
          ChatChannel.Build channel_name true
            (<[client := chat_user]> ∅) (<[client := chat_user]> ∅) in
        Returned true (channels_ ++ [chat_channel])
          [reply client kChannelMessageType_JoinChannel_Complete
             kChannelMessageResult_ChannelCreated;
           OnJoinCompleted kChannelMessageResult_ChannelCreated chat_user;
           OnChannelCreated chat_channel;
           OnChannelJoined chat_channel chat_user]
      | Some (i, chat_channel) =>
        if decide (find ClientsMap (ChatChannel.Clients chat_channel) client
                   ≠ iterator_end ClientsMap) then
          Returned true channels_
            [reply client kChannelMessageType_JoinChannel_Complete
               kChannelMessageResult_AlreadyInChannel;
             OnJoinCompleted kChannelMessageResult_AlreadyInChannel chat_user]
        else
          (* Clients[&client] = chat_user *)
          let chat_channel :=
            ChatChannel.set_Clients
              (<[client := chat_user]> (ChatChannel.Clients chat_channel))
              chat_channel in
          let client_buffer := WriteUInt16 CreateBuffer kChannelMessageResult_Ok in
          let client_buffer :=
            WriteUInt32 client_buffer
              (N.of_nat (size (ChatChannel.Operators chat_channel))) in
          let client_buffer :=
            write_enabled_users users client_buffer
              (ChatChannel.Operators chat_channel) in
          let client_buffer :=
            WriteUInt32 client_buffer
              (N.of_nat (size (ChatChannel.Clients chat_channel))) in
          let client_buffer :=
            write_enabled_users users client_buffer
              (ChatChannel.Clients chat_channel) in
          let clients_buffer :=
            WriteString
              (WriteString
                 (WriteUInt16 CreateBuffer kChannelMessageResult_UserJoined)
                 (ChatUser.Username (users chat_user)))
              (ChatUser.Hostname (users chat_user)) in
          Returned true (<[i := chat_channel]> channels_)
            ([SendUnicast client kComponentType_Channel
                kChannelMessageType_JoinChannel_Complete client_buffer]
             ++ send_to_enabled users (ChatChannel.Clients chat_channel)
                  kChannelMessageType_JoinChannel clients_buffer
             ++ [OnJoinCompleted kChannelMessageResult_Ok chat_user;
                 OnChannelJoined chat_channel chat_user])
      end
  end end end.

(** [if (Operators.find(&client) != Clients.end()) Operators.erase(&client);]
    The guard compares with the end of [Clients]. *)
Definition erase_operator (client : Client) (channel : ChatChannel.t) : ChatChannel.t :=
  if decide (find OperatorsMap (ChatChannel.Operators channel) client
             ≠ iterator_end ClientsMap)
  then ChatChannel.set_Operators
         (delete client (ChatChannel.Operators channel)) channel
  else channel.

(** The branch [message_type == kChannelMessageType_LeaveChannel]. The
    local handle [chat_channel] is the position of the channel, or nothing
    after [reset()]. *)
Definition Handle_LeaveChannel (channels_ : list ChatChannel.t) (client : Client)
    (buffer : TypedBuffer) : Outcome bool :=
  match ReadString buffer with
  | None => Returned false channels_ []
  | Some (channel_name, _) =>
  match ChatServer.GetComponent_User server_ with
  | None => Returned false channels_ []
  | Some user_component =>
  match UserComponent.GetChatUser user_component client with
  | None => Returned false channels_ []
  | Some chat_user =>
    if negb (ChatUser.Identified (users chat_user)) then
      Returned true channels_
        [reply client kChannelMessageType_LeaveChannel_Complete
           kChannelMessageResult_NotIdentified;
         OnLeaveCompleted kChannelMessageResult_NotIdentified chat_user]
    else if negb (String_Contains channel_name "#") then
      Returned true channels_
        [reply client kChannelMessageType_LeaveChannel_Complete
           kChannelMessageResult_InvalidChannelName;
         OnLeaveCompleted kChannelMessageResult_InvalidChannelName chat_user]
    else
      match find_channel channels_ channel_name with
      | None =>
        Returned true channels_
          [reply client kChannelMessageType_LeaveChannel_Complete
             kChannelMessageResult_InvalidChannelName;
           OnLeaveCompleted kChannelMessageResult_InvalidChannelName chat_user]
      | Some (i, channel) =>
        if decide (find ClientsMap (ChatChannel.Clients channel) client
                   ≠ iterator_end ClientsMap) then
          let clients_buffer :=
            WriteString
              (WriteString
                 (WriteUInt16 CreateBuffer kChannelMessageResult_UserLeft)
                 (ChatUser.Username (users chat_user)))
              (ChatUser.Hostname (users chat_user)) in
          let log :=
            send_to_enabled users (ChatChannel.Clients channel)
              kChannelMessageType_LeaveChannel clients_buffer
            ++ [OnChannelLeft channel chat_user] in
          (* Clients.erase(&client) *)
          let channel :=
            ChatChannel.set_Clients (delete client (ChatChannel.Clients channel))
              channel in
          (* if (Clients.empty()) { Enabled = false; chat_channel.reset(); } *)
          let '(channel, chat_channel) :=
            if decide (ChatChannel.Clients channel = ∅)
            then (ChatChannel.set_Enabled false channel, None)
            else (channel, Some i) in
          (* chat_channel->ClientsMutex.unlock() *)
          match chat_channel with
          | None => NullDeref (<[i := channel]> channels_) log
          | Some i =>
            let channel := erase_operator client channel in
            Returned true (<[i := channel]> channels_)
              (log ++
               [SendUnicast client kComponentType_Channel
                  kChannelMessageType_LeaveChannel_Complete
                  (WriteString
                     (WriteUInt16 CreateBuffer kChannelMessageResult_Ok)
                     channel_name);
                OnLeaveCompleted kChannelMessageResult_Ok chat_user])
          end
        else
          Returned true channels_
            [reply client kChannelMessageType_LeaveChannel_Complete
               kChannelMessageResult_NotInChannel;
             OnLeaveCompleted kChannelMessageResult_NotInChannel chat_user]
      end
  end end end.

Definition Handle (channels_ : list ChatChannel.t) (client : Client)
    (message_type : ChannelMessageType) (buffer : TypedBuffer) : Outcome bool :=
  match message_type with
  | kChannelMessageType_JoinChannel => Handle_JoinChannel channels_ client buffer
  | kChannelMessageType_LeaveChannel => Handle_LeaveChannel channels_ client buffer
  | _ => Returned false channels_ []
  end.

(** One turn of the loop of [OnClientDisconnected]: what it makes of the
    channel under the iterator and the effects, and whether it got to its
    end or used the local handle [channel] after [reset()]. *)
Inductive Turn :=
| TurnDone (channel : ChatChannel.t) (log : list Effect)
| TurnNullDeref (channel : ChatChannel.t) (log : list Effect).

Definition disconnect_from (client : Client) (channel : ChatChannel.t) : Turn :=
  if ChatChannel.Enabled channel then
    let '(channel', handle, log) :=
      (* Clients.find(&client) != Clients.end(), then Clients[&client] *)
      match ChatChannel.Clients channel !! client with
      | Some chat_user =>
        let clients_buffer :=
          WriteString
            (WriteString
               (WriteUInt16 CreateBuffer kChannelMessageResult_UserLeft)
               (ChatUser.Username (users chat_user)))
            (ChatUser.Hostname (users chat_user)) in
        let log :=
          send_to_enabled users (ChatChannel.Clients channel)
            kChannelMessageType_LeaveChannel clients_buffer
          ++ [OnChannelLeft channel chat_user] in
        let channel' :=
          ChatChannel.set_Clients (delete client (ChatChannel.Clients channel))
            channel in
        (* if (Clients.empty()) { Enabled = false; channel.reset(); } *)
        if decide (ChatChannel.Clients channel' = ∅)
        then (ChatChannel.set_Enabled false channel', false, log)
        else (channel', true, log)
      | None => (channel, true, [])
      end in
    (* channel->ClientsMutex.unlock() *)
    if handle : bool then TurnDone (erase_operator client channel') log
    else TurnNullDeref channel' log
  else TurnDone channel [].

(** The loop, from the channels already visited, the ones still ahead and
    the effects so far. *)
Fixpoint disconnect_loop (client : Client) (visited ahead : list ChatChannel.t)
    (log : list Effect) : Outcome unit :=
  match ahead with
  | [] => Returned tt visited log
  | channel :: ahead' =>
    match disconnect_from client channel with
    | TurnDone channel' log' =>
      disconnect_loop client (visited ++ [channel']) ahead' (log ++ log')
    | TurnNullDeref channel' log' =>
      NullDeref (visited ++ channel' :: ahead') (log ++ log')
    end
  end.

Definition OnClientDisconnected (channels_ : list ChatChannel.t) (client : Client)
    : Outcome unit :=
  disconnect_loop client [] channels_ [].

End Handle.

(** [Shutdown] and [OnStop] clear the vector and return true. *)
Definition Shutdown (channels_ : list ChatChannel.t) : bool * list ChatChannel.t :=
  (true, match channels_ with [] => channels_ | _ :: _ => [] end).

Definition OnStop (channels_ : list ChatChannel.t) : bool * list ChatChannel.t :=
  (true, match channels_ with [] => channels_ | _ :: _ => [] end).

(** ** Reading a Join reply

    The reply to a successful Join is a result code, a count, the operator
    entries, a count and the member entries. [take_user_entries] reads the
    (username, hostname) pairs that follow a count, up to the next field
    that is not a string. *)
Fixpoint take_user_entries (buffer : TypedBuffer)
    : list (string * string) * TypedBuffer :=
  match buffer with
  | FString username :: FString hostname :: rest =>
    let '(l, rest') := take_user_entries rest in ((username, hostname) :: l, rest')
  | _ => ([], buffer)
  end.

Record JoinReply := {
  operatorCount : N;
  operator_entries : list (string * string);
  memberCount : N;
  member_entries : list (string * string)
}.

Definition read_join_reply (buffer : TypedBuffer) : option JoinReply :=
  match buffer with
  | FUInt16 kChannelMessageResult_Ok :: FUInt32 n_ops :: rest =>
    let '(ops, rest) := take_user_entries rest in
    match rest with
    | FUInt32 n_members :: rest =>
      let '(members, rest) := take_user_entries rest in
      match rest with
      | [] => Some (Build_JoinReply n_ops ops n_members members)
      | _ => None
      end
    | _ => None
    end
  | _ => None
  end.

(** The payloads sent to [client] with a given message type, in order. *)
Definition sent_to (client : Client) (message_type : ChannelMessageType)
    (log : list Effect) : list TypedBuffer :=
  omap (λ e, match e with
             | SendUnicast c kComponentType_Channel mt buffer =>
               if decide (c = client ∧ mt = message_type) then Some buffer else None
             | _ => None
             end) log.

(** The (username, hostname) of a user. *)
Definition identity (users : Heap) (user : UserPtr) : string * string :=
  (ChatUser.Username (users user), ChatUser.Hostname (users user)).

(** ** Notions the properties are stated with *)

(** The entries of a map whose user is enabled, in map order. *)
Definition enabled_entries (users : Heap) (m : gmap Client UserPtr)
    : list (Client * UserPtr) :=
  filter (λ pair, ChatUser.Enabled (users pair.2) = true) (entries m).

(** The two strings each entry contributes to a listing. *)
Definition user_fields (users : Heap) (l : list (Client * UserPtr)) : TypedBuffer :=
  l ≫= λ pair, [FString (ChatUser.Username (users pair.2));
                FString (ChatUser.Hostname (users pair.2))].

(** The request cannot be attributed to a user: the channel name does not
    read, or the user component or the user is not found. *)
Definition unresolved (server_ : ChatServer.t) (client : Client)
    (buffer : TypedBuffer) : Prop :=
  ReadString buffer = None
  ∨ ChatServer.GetComponent_User server_ = None
  ∨ ∃ user_component,
      ChatServer.GetComponent_User server_ = Some user_component
      ∧ UserComponent.GetChatUser user_component client = None.

(** What may happen to one entry: the name stays, a disabled entry stays
    disabled, and an entry that loses its last member is disabled. *)
Definition evolves (channel channel' : ChatChannel.t) : Prop :=
  ChatChannel.Name channel' = ChatChannel.Name channel
  ∧ (ChatChannel.Enabled channel' = true → ChatChannel.Enabled channel = true)
  ∧ (ChatChannel.Clients channel' = ∅ →
     ChatChannel.Clients channel = ∅ ∨ ChatChannel.Enabled channel' = false).

(** What may happen to the vector: every entry stays in its place and
    evolves, and at most one entry is appended, whose name no enabled entry
    had. *)
Definition grows_from (channels_ channels' : list ChatChannel.t) : Prop :=
  ∃ kept created,
    channels' = kept ++ created
    ∧ Forall2 evolves channels_ kept
    ∧ (created = []
       ∨ ∃ channel, created = [channel]
                    ∧ find_channel channels_ (ChatChannel.Name channel) = None).

(** No two enabled entries of the vector share a name. *)
Definition unique_enabled_names (channels_ : list ChatChannel.t) : Prop :=
  ∀ i j channel_i channel_j,
    channels_ !! i = Some channel_i → channels_ !! j = Some channel_j →
    ChatChannel.Enabled channel_i = true → ChatChannel.Enabled channel_j = true →
    ChatChannel.Name channel_i = ChatChannel.Name channel_j →
    i = j.

(** No entry leaves the vector: it is at least as long as before, and every
    position keeps its entry's name; an entry whose members have all gone is
    still there, disabled. *)
Definition never_removes (channels_ channels' : list ChatChannel.t) : Prop :=
  (length channels_ ≤ length channels')%nat
  ∧ ∀ i channel, channels_ !! i = Some channel →
      ∃ channel', channels' !! i = Some channel'
        ∧ ChatChannel.Name channel' = ChatChannel.Name channel
        ∧ (ChatChannel.Clients channel ≠ ∅ → ChatChannel.Clients channel' = ∅ →
           ChatChannel.Enabled channel' = false).

(** The operations of the claims on the directory. The collaborators (the
    server's user component and the user records) may differ from one
    operation to the next. *)
Inductive Operation :=
| OpHandle (server_ : ChatServer.t) (users : Heap) (client : Client)
    (message_type : ChannelMessageType) (buffer : TypedBuffer)
| OpDisconnect (users : Heap) (client : Client).

(** The directory after an operation; for a call that faults, the directory
    as the fault left it. *)
Definition run (op : Operation) (channels_ : list ChatChannel.t)
    : list ChatChannel.t :=
  match op with
  | OpHandle server_ users client message_type buffer =>
    outcome_channels (Handle server_ users channels_ client message_type buffer)
  | OpDisconnect users client =>
    outcome_channels (OnClientDisconnected users channels_ client)
  end.

(** The directories that sequences of operations lead to, from the empty
    one the component starts with. *)
Inductive reachable : list ChatChannel.t → Prop :=
| reachable_start : reachable []
| reachable_run op channels_ : reachable channels_ → reachable (run op channels_).

(** What one turn of the sweep leaves of a channel, and what it sends. *)
Definition swept (client : Client) (channel : ChatChannel.t) : ChatChannel.t :=
  if ChatChannel.Enabled channel
  then ChatChannel.Build (ChatChannel.Name channel) true
         (delete client (ChatChannel.Operators channel))
         (delete client (ChatChannel.Clients channel))
  else channel.

Definition departure_notices (users : Heap) (client : Client)
    (channel : ChatChannel.t)
    : list Effect :=
  if ChatChannel.Enabled channel then
    match ChatChannel.Clients channel !! client with
    | Some chat_user =>
      send_to_enabled users (ChatChannel.Clients channel)
        kChannelMessageType_LeaveChannel
        [FUInt16 kChannelMessageResult_UserLeft;
         FString (ChatUser.Username (users chat_user));
         FString (ChatUser.Hostname (users chat_user))]
      ++ [OnChannelLeft channel chat_user]
    | None => []
    end
  else [].

(** The connection would not leave this channel empty. *)
Definition leaves_someone (client : Client) (channel : ChatChannel.t) : Prop :=
  ChatChannel.Enabled channel = true →
  is_Some (ChatChannel.Clients channel !! client) →
  delete client (ChatChannel.Clients channel) ≠ ∅.

(** ** A scenario: two connections and the channel #general *)

Module Scenario.
Definition A : Client := 10.
Definition B : Client := 20.
Definition user_A : UserPtr := 100.
Definition user_B : UserPtr := 200.

Definition user_component : UserComponent.t :=
  UserComponent.Build
    (λ client, if decide (client = A) then Some user_A
               else if decide (client = B) then Some user_B
               else None).

Definition server : ChatServer.t := ChatServer.Build (Some user_component).

Definition alice : ChatUser.t := ChatUser.Build "alice" "host-a" true true.
Definition bob : ChatUser.t := ChatUser.Build "bob" "host-b" true true.

Definition users : Heap :=
  λ user, if decide (user = user_A) then alice else bob.

(** The same records after the user component has disabled alice's. *)
Definition users_A_disabled : Heap :=
  λ user, if decide (user = user_A)
          then ChatUser.Build "alice" "host-a" true false
          else bob.

Definition join (client : Client) (channel_name : string) : Operation :=
  OpHandle server users client kChannelMessageType_JoinChannel
    [FString channel_name].

(** A has joined #general. *)
Definition A_alone : list ChatChannel.t := run (join A "#general") [].

(** A has joined #lobby and #general, then B has joined #general. *)
Definition A_in_two : list ChatChannel.t :=
  run (join B "#general") (run (join A "#general") (run (join A "#lobby") [])).

(** #general with B as its only member, and A left behind as an operator. *)
Definition A_only_operator : ChatChannel.t :=
  ChatChannel.Build "#general" true
    (<[A := user_A]> {[B := user_B]}) {[B := user_B]}.
End Scenario.

(** ** The hooks without a body of their own *)

(** [Initialize] keeps the server for the later calls and returns true. *)
Definition Initialize (server : ChatServer.t) : bool * ChatServer.t :=
  (true, server).

Definition OnStart : bool := true.

Definition OnClientConnected (channels_ : list ChatChannel.t) (client : Client)
    : list ChatChannel.t :=
  channels_.

Definition GetType : ComponentType := kComponentType_Channel.

(** ** What one call does to one channel

    The ways in which a call made for [client] changes an entry of the
    vector. Each of them but the first starts from an enabled channel. *)
Inductive channel_step (client : Client) : ChatChannel.t → ChatChannel.t → Prop :=
| step_untouched channel : channel_step client channel channel
| step_joined channel chat_user :
    ChatChannel.Enabled channel = true →
    ChatChannel.Clients channel !! client = None →
    channel_step client channel
      (ChatChannel.set_Clients
         (<[client := chat_user]> (ChatChannel.Clients channel)) channel)
| step_left channel :
    ChatChannel.Enabled channel = true →
    is_Some (ChatChannel.Clients channel !! client) →
    delete client (ChatChannel.Clients channel) ≠ ∅ →
    channel_step client channel
      (erase_operator client
         (ChatChannel.set_Clients (delete client (ChatChannel.Clients channel))
            channel))
| step_emptied channel :
    ChatChannel.Enabled channel = true →
    is_Some (ChatChannel.Clients channel !! client) →
    delete client (ChatChannel.Clients channel) = ∅ →
    channel_step client channel
      (ChatChannel.set_Enabled false
         (ChatChannel.set_Clients (delete client (ChatChannel.Clients channel))
            channel))
| step_operator_erased channel :
    ChatChannel.Enabled channel = true →
    ChatChannel.Clients channel !! client = None →
    channel_step client channel (erase_operator client channel).

(** The channel a Join creates. *)
Definition created_channel (channel_name : string) (client : Client)
    (chat_user : UserPtr) : ChatChannel.t :=
  ChatChannel.Build channel_name true
    (<[client := chat_user]> ∅) (<[client := chat_user]> ∅).

(** The ways in which a call made for [client] changes the vector: every
    entry takes a [channel_step], and at most one channel is appended, of a
    name with '#' that no enabled entry had. *)
Definition directory_step (client : Client)
    (channels_ channels' : list ChatChannel.t) : Prop :=
  ∃ kept created,
    channels' = kept ++ created
    ∧ Forall2 (channel_step client) channels_ kept
    ∧ (created = []
       ∨ ∃ channel_name chat_user,
           created = [created_channel channel_name client chat_user]
           ∧ String_Contains channel_name "#" = true
           ∧ find_channel channels_ channel_name = None).

(** What every entry of the vector keeps satisfying: its name has a '#',
    it has at most one operator, and while it is enabled it has a member
    and its operators are among its members. *)
Definition well_formed (channel : ChatChannel.t) : Prop :=
  String_Contains (ChatChannel.Name channel) "#" = true
  ∧ (size (ChatChannel.Operators channel) ≤ 1)%nat
  ∧ (ChatChannel.Enabled channel = true →
     ChatChannel.Clients channel ≠ ∅
     ∧ ChatChannel.Operators channel ⊆ ChatChannel.Clients channel).

(** The connection is neither a member nor an operator of the channel. *)
Definition absent_from (client : Client) (channel : ChatChannel.t) : Prop :=
  ChatChannel.Clients channel !! client = None
  ∧ ChatChannel.Operators channel !! client = None.

(** The connection is the only member of the enabled channel. *)
Definition only_member (client : Client) (channel : ChatChannel.t) : Prop :=
  ChatChannel.Enabled channel = true
  ∧ is_Some (ChatChannel.Clients channel !! client)
  ∧ delete client (ChatChannel.Clients channel) = ∅.

(** The payload a broadcast brings to one connection: one copy if it is in
    the map with an enabled user, none otherwise. *)
Definition copies (users : Heap) (m : gmap Client UserPtr) (client : Client)
    (buffer : TypedBuffer) : list TypedBuffer :=
  match m !! client with
  | Some user => if ChatUser.Enabled (users user) then [buffer] else []
  | None => []
  end.

(** The message type of the reply to a request. *)
Definition reply_type (message_type : ChannelMessageType) : ChannelMessageType :=
  match message_type with
  | kChannelMessageType_JoinChannel => kChannelMessageType_JoinChannel_Complete
  | kChannelMessageType_LeaveChannel => kChannelMessageType_LeaveChannel_Complete
  | other => other
  end.

(** ** A second scenario: a guest that has not identified itself *)

Module Guests.
Definition G : Client := 30.
Definition user_G : UserPtr := 300.

Definition user_component : UserComponent.t :=
  UserComponent.Build
    (λ client, if decide (client = G) then Some user_G
               else UserComponent.GetChatUser Scenario.user_component client).

Definition server : ChatServer.t := ChatServer.Build (Some user_component).

Definition guest : ChatUser.t := ChatUser.Build "guest" "host-g" false true.

Definition users : Heap :=
  λ user, if decide (user = user_G) then guest else Scenario.users user.

(** A has joined #general, then B; A is its operator. *)
Definition A_and_B : list ChatChannel.t :=
  run (Scenario.join Scenario.B "#general") Scenario.A_alone.

(** The #general of A alone, and the one of A and B. *)
Definition general_A : ChatChannel.t :=
  ChatChannel.Build "#general" true {[Scenario.A := Scenario.user_A]}
    {[Scenario.A := Scenario.user_A]}.

Definition general_AB : ChatChannel.t :=
  ChatChannel.Build "#general" true {[Scenario.A := Scenario.user_A]}
    (<[Scenario.B := Scenario.user_B]> {[Scenario.A := Scenario.user_A]}).

Definition lobby_A : ChatChannel.t :=
  ChatChannel.Build "#lobby" true {[Scenario.A := Scenario.user_A]}
    {[Scenario.A := Scenario.user_A]}.

(** A disabled #general that still lists A, followed by a #lobby of B. *)
Definition closed_general : list ChatChannel.t :=
  [ChatChannel.Build "#general" false {[Scenario.A := Scenario.user_A]}
     {[Scenario.A := Scenario.user_A]};
   ChatChannel.Build "#lobby" true {[Scenario.B := Scenario.user_B]}
     {[Scenario.B := Scenario.user_B]}].
End Guests.

(** ** Properties of the model's building blocks *)

Lemma starts_with_hash (s : string) :
  starts_with "#" s = true ↔ ∃ s', s = String "#"%char s'.
Proof.
  destruct s as [|a s]; simpl.
  - split; [done | by intros [? ?]].
  - rewrite andb_true_r, bool_decide_eq_true. split.
    + intros <-. by exists s.
    + by intros [? [= <- _]].
Qed.

(** [String_Contains s "#"] holds exactly when the character occurs in [s]. *)
Lemma String_Contains_hash (s : string) :
  String_Contains s "#" = true ↔ "#"%char ∈ String.list_ascii_of_string s.
Proof.
  induction s as [|a s IH].
  - simpl. split; [done | by intros ?%elem_of_nil].
  - cbn [String_Contains String.list_ascii_of_string].
    rewrite orb_true_iff, IH, starts_with_hash, elem_of_cons. split.
    + intros [[s' [= -> _]] | H]; auto.
    + intros [<- | H]; eauto.
Qed.

Section Entries.
Implicit Types m : gmap Client UserPtr.

Lemma entries_Permutation m : entries m ≡ₚ map_to_list m.
Proof. apply merge_sort_Permutation. Qed.

Lemma elem_of_entries m k v : (k, v) ∈ entries m ↔ m !! k = Some v.
Proof. by rewrite entries_Permutation, elem_of_map_to_list. Qed.

Lemma length_entries m : length (entries m) = size m.
Proof. by rewrite entries_Permutation, length_map_to_list. Qed.

#[local] Instance key_le_total : Total key_le.
Proof. intros x y. unfold key_le. lia. Qed.

#[local] Instance key_le_trans : Transitive key_le.
Proof. intros x y z. unfold key_le. lia. Qed.

Lemma entries_Sorted m : Sorted key_le (entries m).
Proof. apply Sorted_merge_sort, _. Qed.

Lemma entries_empty : entries ∅ = [].
Proof. apply Permutation_nil_r. by rewrite entries_Permutation, map_to_list_empty. Qed.

Lemma entries_singleton k v : entries {[k := v]} = [(k, v)].
Proof.
  apply Permutation_singleton_r.
  by rewrite entries_Permutation, map_to_list_singleton.
Qed.

(** Two entries come out smaller key first. *)
Lemma entries_pair k1 v1 k2 v2 :
  (k1 < k2)%N →
  entries (<[k2 := v2]> {[k1 := v1]}) = [(k1, v1); (k2, v2)]
  ∧ entries (<[k1 := v1]> {[k2 := v2]}) = [(k1, v1); (k2, v2)].
Proof.
  intros Hlt.
  assert (∀ l, l ≡ₚ [(k1, v1); (k2, v2)] → Sorted key_le l →
               l = [(k1, v1); (k2, v2)]) as Hsorted.
  { intros l Hp Hs. symmetry in Hp.
    apply Permutation_length_2_inv in Hp as [-> | ->]; [done |].
    apply Sorted_inv in Hs as [_ Hhd]. apply HdRel_inv in Hhd.
    unfold key_le in Hhd. simpl in Hhd. lia. }
  split; apply Hsorted; try apply entries_Sorted; rewrite entries_Permutation.
  - rewrite map_to_list_insert, map_to_list_singleton.
    + apply Permutation_swap.
    + apply lookup_singleton_ne. lia.
  - rewrite map_to_list_insert, map_to_list_singleton; [done |].
    apply lookup_singleton_ne. lia.
Qed.

End Entries.

Section Loops.
Variable users : Heap.
Implicit Types m : gmap Client UserPtr.

(** The broadcast loop sends once to each enabled entry, in map order. *)
Lemma send_to_enabled_spec m message_type buffer :
  send_to_enabled users m message_type buffer
  = (λ pair, SendUnicast pair.1 kComponentType_Channel message_type buffer)
      <$> enabled_entries users m.
Proof.
  unfold send_to_enabled, enabled_entries.
  set (send := λ pair : Client * UserPtr,
         SendUnicast pair.1 kComponentType_Channel message_type buffer).
  enough (∀ l log,
    foldl (λ log pair, if ChatUser.Enabled (users pair.2)
                       then log ++ [send pair] else log) log l
    = log ++ (send <$> filter (λ pair, ChatUser.Enabled (users pair.2) = true) l))
    as H by apply (H _ []).
  induction l as [|[c u] l IH]; intros log; simpl.
  - by rewrite app_nil_r.
  - rewrite IH. destruct (ChatUser.Enabled (users u)) eqn:Hu.
    + rewrite filter_cons_True by done. simpl. by rewrite <- app_assoc.
    + rewrite filter_cons_False; [done |]. simpl. congruence.
Qed.

Lemma elem_of_enabled_entries m c u :
  (c, u) ∈ enabled_entries users m
  ↔ m !! c = Some u ∧ ChatUser.Enabled (users u) = true.
Proof.
  unfold enabled_entries. rewrite list_elem_of_filter, elem_of_entries.
  simpl. tauto.
Qed.

(** Who receives a broadcast: exactly the connections of the map whose
    user is enabled. *)
Lemma elem_of_send_to_enabled m message_type buffer e :
  e ∈ send_to_enabled users m message_type buffer
  ↔ ∃ c u, e = SendUnicast c kComponentType_Channel message_type buffer
           ∧ m !! c = Some u ∧ ChatUser.Enabled (users u) = true.
Proof.
  rewrite send_to_enabled_spec, list_elem_of_fmap. split.
  - intros [[c u] [-> H%elem_of_enabled_entries]]. eauto.
  - intros (c & u & -> & H). exists (c, u).
    by rewrite elem_of_enabled_entries.
Qed.

(** The listing loop appends two strings for each enabled entry. *)
Lemma write_enabled_users_spec buffer m :
  write_enabled_users users buffer m = buffer ++ user_fields users (enabled_entries users m).
Proof.
  unfold write_enabled_users, enabled_entries, user_fields. revert buffer.
  induction (entries m) as [|[c u] l IH]; intros buffer; simpl.
  - by rewrite app_nil_r.
  - rewrite IH. destruct (ChatUser.Enabled (users u)) eqn:Hu.
    + rewrite filter_cons_True by done. unfold WriteString. simpl.
      by rewrite <- !app_assoc.
    + rewrite filter_cons_False; [done |]. simpl. congruence.
Qed.

Lemma take_user_entries_fields l rest :
  (∀ username hostname rest', rest ≠ FString username :: FString hostname :: rest') →
  take_user_entries (user_fields users l ++ rest) = (identity users <$> l.*2, rest).
Proof.
  intros Hrest. induction l as [|[c u] l IH]; simpl.
  - destruct rest as [|[] [|[] ?]]; try done. by edestruct Hrest.
  - change (user_fields users ((c, u) :: l) ++ rest)
      with (FString (ChatUser.Username (users u))
            :: FString (ChatUser.Hostname (users u))
            :: (user_fields users l ++ rest)).
    cbn [take_user_entries]. by rewrite IH.
Qed.

End Loops.

Section Lookup.

(** The lookup finds nothing exactly when no enabled channel has the name. *)
Lemma find_channel_None (channels_ : list ChatChannel.t) channel_name :
  find_channel channels_ channel_name = None
  ↔ ∀ channel, channel ∈ channels_ → ChatChannel.Enabled channel = true →
               ChatChannel.Name channel ≠ channel_name.
Proof.
  unfold find_channel. rewrite list_find_None, Forall_forall.
  split; intros H channel Hin.
  - intros He Hn. by apply (H channel Hin).
  - intros [He Hn]. by apply (H channel Hin).
Qed.

(** What it finds is enabled, has the name and is the first such entry. *)
Lemma find_channel_Some (channels_ : list ChatChannel.t) channel_name i channel :
  find_channel channels_ channel_name = Some (i, channel)
  ↔ channels_ !! i = Some channel
    ∧ ChatChannel.Enabled channel = true
    ∧ ChatChannel.Name channel = channel_name
    ∧ ∀ j other, channels_ !! j = Some other → (j < i)%nat →
                 ¬ (ChatChannel.Enabled other = true
                    ∧ ChatChannel.Name other = channel_name).
Proof. unfold find_channel. rewrite list_find_Some. tauto. Qed.

Lemma find_Clients_iff (m : gmap Client UserPtr) client :
  find ClientsMap m client ≠ iterator_end ClientsMap ↔ is_Some (m !! client).
Proof.
  unfold find. destruct (m !! client) as [u|].
  - split; [by eauto | done].
  - split; [done | by intros [? ?]].
Qed.

(** The guard before [Operators.erase] never fails: an iterator of
    [Operators] is not the end of [Clients]. *)
Lemma erase_operator_spec client channel :
  erase_operator client channel
  = ChatChannel.set_Operators (delete client (ChatChannel.Operators channel))
      channel.
Proof.
  unfold erase_operator, find.
  by destruct (ChatChannel.Operators channel !! client); rewrite decide_True.
Qed.

(** Erasing a connection that is no operator changes nothing. *)
Lemma erase_operator_absent client channel :
  ChatChannel.Operators channel !! client = None →
  erase_operator client channel = channel.
Proof.
  intros H. rewrite erase_operator_spec. destruct channel as [n e ops cl].
  unfold ChatChannel.set_Operators. simpl in *. by rewrite delete_id.
Qed.

End Lookup.

(** ** How a call changes the directory *)

Lemma evolves_refl channel : evolves channel channel.
Proof. unfold evolves. tauto. Qed.

Lemma evolves_all_refl (channels_ : list ChatChannel.t) :
  Forall2 evolves channels_ channels_.
Proof. apply Forall_Forall2_diag, Forall_forall. intros. apply evolves_refl. Qed.

Lemma evolves_erase_operator client channel channel' :
  evolves channel channel' → evolves channel (erase_operator client channel').
Proof. rewrite erase_operator_spec. by destruct channel'. Qed.

Lemma evolves_join client chat_user channel :
  evolves channel
    (ChatChannel.set_Clients
       (<[client := chat_user]> (ChatChannel.Clients channel)) channel).
Proof.
  repeat split; try done. simpl. intros H. by apply insert_non_empty in H.
Qed.

Lemma evolves_leave client channel :
  delete client (ChatChannel.Clients channel) ≠ ∅ →
  evolves channel
    (ChatChannel.set_Clients (delete client (ChatChannel.Clients channel)) channel).
Proof. repeat split; done. Qed.

Lemma evolves_disable client channel :
  evolves channel
    (ChatChannel.set_Enabled false
       (ChatChannel.set_Clients (delete client (ChatChannel.Clients channel))
          channel)).
Proof. repeat split; try done. simpl. auto. Qed.

Lemma grows_from_refl channels_ : grows_from channels_ channels_.
Proof.
  exists channels_, []. rewrite app_nil_r.
  split_and!; [done | apply evolves_all_refl | by left].
Qed.

Lemma grows_from_update channels_ i channel channel' :
  channels_ !! i = Some channel → evolves channel channel' →
  grows_from channels_ (<[i := channel']> channels_).
Proof.
  intros Hi He. exists (<[i := channel']> channels_), [].
  rewrite app_nil_r. split_and!; [done | | by left].
  rewrite <- (list_insert_id channels_ i channel) at 1 by done.
  apply Forall2_insert; [apply evolves_all_refl | done].
Qed.

Lemma grows_from_create channels_ channel :
  find_channel channels_ (ChatChannel.Name channel) = None →
  grows_from channels_ (channels_ ++ [channel]).
Proof.
  intros H. exists channels_, [channel].
  split_and!; [done | apply evolves_all_refl | eauto].
Qed.

Section Steps.
Variable server_ : ChatServer.t.
Variable users : Heap.

Lemma Handle_JoinChannel_grows channels_ client buffer :
  grows_from channels_
    (outcome_channels (Handle_JoinChannel server_ users channels_ client buffer)).
Proof.
  unfold Handle_JoinChannel.
  destruct (ReadString buffer) as [[channel_name ?]|];
    [| apply grows_from_refl].
  destruct (ChatServer.GetComponent_User server_) as [user_component|];
    [| apply grows_from_refl].
  destruct (UserComponent.GetChatUser user_component client) as [chat_user|];
    [| apply grows_from_refl].
  destruct (negb (ChatUser.Identified (users chat_user)));
    [apply grows_from_refl |].
  destruct (negb (String_Contains channel_name "#"));
    [apply grows_from_refl |].
  destruct (find_channel channels_ channel_name) as [[i channel]|] eqn:Hfind.
  - apply find_channel_Some in Hfind as (Hi & _).
    case_decide; [apply grows_from_refl |]. simpl.
    eapply grows_from_update; [done | apply evolves_join].
  - simpl. by apply grows_from_create.
Qed.

Lemma Handle_LeaveChannel_grows channels_ client buffer :
  grows_from channels_
    (outcome_channels (Handle_LeaveChannel server_ users channels_ client buffer)).
Proof.
  unfold Handle_LeaveChannel.
  destruct (ReadString buffer) as [[channel_name ?]|];
    [| apply grows_from_refl].
  destruct (ChatServer.GetComponent_User server_) as [user_component|];
    [| apply grows_from_refl].
  destruct (UserComponent.GetChatUser user_component client) as [chat_user|];
    [| apply grows_from_refl].
  destruct (negb (ChatUser.Identified (users chat_user)));
    [apply grows_from_refl |].
  destruct (negb (String_Contains channel_name "#"));
    [apply grows_from_refl |].
  destruct (find_channel channels_ channel_name) as [[i channel]|] eqn:Hfind;
    [| apply grows_from_refl].
  apply find_channel_Some in Hfind as (Hi & _).
  case_decide; [| apply grows_from_refl].
  cbn [ChatChannel.set_Clients ChatChannel.Clients].
  case_decide as Hempty; simpl.
  - eapply grows_from_update; [done | apply evolves_disable].
  - eapply grows_from_update; [done |].
    by apply evolves_erase_operator, evolves_leave.
Qed.

Lemma Handle_grows channels_ client message_type buffer :
  grows_from channels_
    (outcome_channels (Handle server_ users channels_ client message_type buffer)).
Proof.
  destruct message_type; simpl;
    auto using Handle_JoinChannel_grows, Handle_LeaveChannel_grows,
               grows_from_refl.
Qed.

Lemma disconnect_from_evolves client channel :
  match disconnect_from users client channel with
  | TurnDone channel' _ | TurnNullDeref channel' _ => evolves channel channel'
  end.
Proof.
  unfold disconnect_from.
  destruct (ChatChannel.Enabled channel); [| apply evolves_refl].
  destruct (ChatChannel.Clients channel !! client) as [chat_user|].
  - cbn [ChatChannel.set_Clients ChatChannel.Clients].
    case_decide as Hempty.
    + apply evolves_disable.
    + by apply evolves_erase_operator, evolves_leave.
  - apply evolves_erase_operator, evolves_refl.
Qed.

Lemma disconnect_loop_evolves client visited ahead log :
  ∃ ahead',
    outcome_channels (disconnect_loop users client visited ahead log)
    = visited ++ ahead'
    ∧ Forall2 evolves ahead ahead'.
Proof.
  revert visited log. induction ahead as [|channel ahead IH]; intros visited log.
  - exists []. simpl. rewrite app_nil_r. by split; [| constructor].
  - simpl. pose proof (disconnect_from_evolves client channel) as He.
    destruct (disconnect_from users client channel) as [channel' log'|channel' log'].
    + destruct (IH (visited ++ [channel']) (log ++ log')) as (ahead' & -> & Hall).
      exists (channel' :: ahead'). rewrite <- app_assoc. by split; [| constructor].
    + exists (channel' :: ahead). simpl.
      split; [done |]. constructor; [done | apply evolves_all_refl].
Qed.

Lemma OnClientDisconnected_grows channels_ client :
  grows_from channels_
    (outcome_channels (OnClientDisconnected users channels_ client)).
Proof.
  destruct (disconnect_loop_evolves client [] channels_ []) as (kept & Heq & Hall).
  exists kept, []. rewrite app_nil_r. by split_and!; [| | left].
Qed.

End Steps.

(** ** The directory over time *)

Lemma run_grows op channels_ : grows_from channels_ (run op channels_).
Proof.
  destruct op; simpl; auto using Handle_grows, OnClientDisconnected_grows.
Qed.

Lemma grows_from_unique channels_ channels' :
  grows_from channels_ channels' →
  unique_enabled_names channels_ → unique_enabled_names channels'.
Proof.
  intros (kept & created & -> & Hall & Hcreated) Huniq.
  assert (∀ i channel', kept !! i = Some channel' →
            ChatChannel.Enabled channel' = true →
            ∃ channel, channels_ !! i = Some channel
                       ∧ ChatChannel.Enabled channel = true
                       ∧ ChatChannel.Name channel = ChatChannel.Name channel')
    as Hback.
  { intros i channel' Hi He.
    destruct (Forall2_lookup_r _ _ _ _ _ Hall Hi) as (channel & Hc & Hn & Hen & _).
    eauto. }
  assert (∀ i j channel_i channel_j,
            kept !! i = Some channel_i → created !! j = Some channel_j →
            ChatChannel.Enabled channel_i = true →
            ChatChannel.Name channel_i ≠ ChatChannel.Name channel_j)
    as Hfresh.
  { intros i j ci cj Hi Hj Hei Heq.
    destruct Hcreated as [-> | (channel & -> & Hnone)]; [done |].
    apply list_lookup_singleton_Some in Hj as [_ <-].
    destruct (Hback _ _ Hi Hei) as (c0 & Hc0 & He0 & Hn0).
    rewrite find_channel_None in Hnone.
    apply (Hnone c0); [by eapply list_elem_of_lookup_2 | done | congruence]. }
  intros i j ci cj Hi Hj Hei Hej Hname.
  apply lookup_app_Some in Hi as [Hi | [Hlen_i Hi]];
    apply lookup_app_Some in Hj as [Hj | [Hlen_j Hj]].
  - destruct (Hback _ _ Hi Hei) as (ci0 & ? & ? & ?).
    destruct (Hback _ _ Hj Hej) as (cj0 & ? & ? & ?).
    eapply Huniq; eauto. congruence.
  - by destruct (Hfresh _ _ _ _ Hi Hj Hei).
  - by destruct (Hfresh _ _ _ _ Hj Hi Hej).
  - destruct Hcreated as [-> | (channel & -> & _)]; [done |].
    apply list_lookup_singleton_Some in Hi as [Hi _].
    apply list_lookup_singleton_Some in Hj as [Hj _]. lia.
Qed.

Lemma grows_from_never_removes channels_ channels' :
  grows_from channels_ channels' → never_removes channels_ channels'.
Proof.
  intros (kept & created & -> & Hall & _). split.
  - rewrite length_app, (Forall2_length _ _ _ Hall). lia.
  - intros i channel Hi.
    destruct (Forall2_lookup_l _ _ _ _ _ Hall Hi) as (channel' & Hk & Hn & _ & Hc).
    exists channel'. split_and!; [by apply lookup_app_l_Some | done |].
    intros Hne Hempty. by destruct (Hc Hempty).
Qed.

(** ** The payloads a connection is sent *)

Lemma sent_to_app client message_type log1 log2 :
  sent_to client message_type (log1 ++ log2)
  = sent_to client message_type log1 ++ sent_to client message_type log2.
Proof. apply omap_app. Qed.

Lemma sent_to_send_eq client message_type buffer log :
  sent_to client message_type
    (SendUnicast client kComponentType_Channel message_type buffer :: log)
  = buffer :: sent_to client message_type log.
Proof. unfold sent_to. simpl. by rewrite decide_True. Qed.

Lemma sent_to_send_ne client message_type client' message_type' buffer log :
  client' ≠ client ∨ message_type' ≠ message_type →
  sent_to client message_type
    (SendUnicast client' kComponentType_Channel message_type' buffer :: log)
  = sent_to client message_type log.
Proof. intros H. unfold sent_to. simpl. rewrite decide_False; [done | tauto]. Qed.

(** ** Where the calls do return *)

Section Returns.
Variable server_ : ChatServer.t.
Variable users : Heap.

(** A Join of a resolved user always returns true. *)
Lemma Handle_JoinChannel_returns_true channels_ client buffer :
  ¬ unresolved server_ client buffer →
  ∃ channels' log,
    Handle_JoinChannel server_ users channels_ client buffer
    = Returned true channels' log.
Proof.
  unfold unresolved, Handle_JoinChannel. intros Hres.
  destruct (ReadString buffer) as [[channel_name ?]|]; [| by destruct Hres; auto].
  destruct (ChatServer.GetComponent_User server_) as [uc|];
    [| by destruct Hres; auto].
  destruct (UserComponent.GetChatUser uc client) as [chat_user|] eqn:Huser;
    [| by destruct Hres; eauto 6].
  repeat (match goal with
          | |- context [if ?b then _ else _] => destruct b
          | |- context [find_channel ?l ?n] =>
            destruct (find_channel l n) as [[? ?]|]
          end; eauto).
Qed.

(** A Leave of a resolved user returns true, unless it takes the last
    member out of the channel: then it faults. *)
Lemma Handle_LeaveChannel_returns_or_faults channels_ client buffer :
  ¬ unresolved server_ client buffer →
  (∃ channels' log,
     Handle_LeaveChannel server_ users channels_ client buffer
     = Returned true channels' log)
  ∨ (∃ channel_name rest i channel channels' log,
       ReadString buffer = Some (channel_name, rest)
       ∧ find_channel channels_ channel_name = Some (i, channel)
       ∧ is_Some (ChatChannel.Clients channel !! client)
       ∧ delete client (ChatChannel.Clients channel) = ∅
       ∧ Handle_LeaveChannel server_ users channels_ client buffer
         = NullDeref channels' log).
Proof.
  unfold unresolved, Handle_LeaveChannel. intros Hres.
  destruct (ReadString buffer) as [[channel_name rest]|]; [| by destruct Hres; auto].
  destruct (ChatServer.GetComponent_User server_) as [uc|];
    [| by destruct Hres; auto].
  destruct (UserComponent.GetChatUser uc client) as [chat_user|] eqn:Huser;
    [| by destruct Hres; eauto 6].
  destruct (negb (ChatUser.Identified (users chat_user))); [by eauto |].
  destruct (negb (String_Contains channel_name "#")); [by eauto |].
  destruct (find_channel channels_ channel_name) as [[i channel]|] eqn:Hfind;
    [| by eauto].
  case_decide as Hmember; [| by eauto]. apply find_Clients_iff in Hmember.
  cbn [ChatChannel.set_Clients ChatChannel.Clients].
  case_decide as Hempty; [| by eauto].
  right. by eexists _, _, _, _, _, _.
Qed.

Lemma disconnect_from_leaves_someone client channel :
  leaves_someone client channel →
  disconnect_from users client channel
  = TurnDone (swept client channel) (departure_notices users client channel).
Proof.
  unfold leaves_someone, disconnect_from, swept, departure_notices.
  intros Hsome. destruct channel as [name [|] ops clients]; [| done].
  cbn [ChatChannel.Enabled ChatChannel.Clients ChatChannel.set_Clients] in *.
  destruct (clients !! client) as [chat_user|] eqn:Hmember.
  - rewrite decide_False by eauto. by rewrite erase_operator_spec.
  - rewrite erase_operator_spec. cbn. by rewrite (delete_id clients).
Qed.

Lemma disconnect_loop_returns client visited ahead log :
  Forall (leaves_someone client) ahead →
  disconnect_loop users client visited ahead log
  = Returned tt (visited ++ (swept client <$> ahead))
      (log ++ (ahead ≫= departure_notices users client)).
Proof.
  intros Hall. revert visited log.
  induction Hall as [|channel ahead Hsome _ IH]; intros visited log; simpl.
  - by rewrite !app_nil_r.
  - rewrite disconnect_from_leaves_someone by done.
    rewrite IH. by rewrite <- !app_assoc.
Qed.

(** When the connection is the last member of no enabled channel, the
    sweep visits every channel: in each enabled one where it is a member
    it notifies the enabled members, and it leaves the members and the
    operators of every enabled channel. *)
Lemma OnClientDisconnected_returns channels_ client :
  Forall (leaves_someone client) channels_ →
  OnClientDisconnected users channels_ client
  = Returned tt (swept client <$> channels_)
      (channels_ ≫= departure_notices users client).
Proof. intros Hall. unfold OnClientDisconnected. by rewrite disconnect_loop_returns. Qed.

End Returns.

(** ** Where the counts of a Join reply are right *)

Section Counts.
Variable users : Heap.

Lemma sent_to_send_to_enabled_other (m : gmap Client UserPtr) client
    message_type message_type' buffer :
  message_type' ≠ message_type →
  sent_to client message_type (send_to_enabled users m message_type' buffer) = [].
Proof.
  intros Hne. rewrite send_to_enabled_spec.
  induction (enabled_entries users m) as [|[c u] l IH]; [done |].
  cbn [fmap list_fmap]. rewrite sent_to_send_ne by (right; done). apply IH.
Qed.

Lemma enabled_entries_all (m : gmap Client UserPtr) :
  (∀ c u, m !! c = Some u → ChatUser.Enabled (users u) = true) →
  enabled_entries users m = entries m.
Proof.
  intros Hall. unfold enabled_entries.
  assert (Forall (λ pair, ChatUser.Enabled (users pair.2) = true) (entries m))
    as Hforall.
  { apply Forall_forall. intros [c u] Hin%elem_of_entries. by eapply Hall. }
  induction Hforall as [|pair l Hpair _ IH]; [done |].
  rewrite filter_cons_True by done. by rewrite IH.
Qed.

Lemma length_identities (m : gmap Client UserPtr) :
  length (identity users <$> (entries m).*2) = size m.
Proof. by rewrite !length_fmap, length_entries. Qed.

(** When every user of the channel and the joiner are enabled (and the
    maps have fewer than 2^32 entries), each count of the Ok reply is the
    number of entries that follow it. *)
Lemma Join_reply_counts_agree server_ user_component channels_ client chat_user
    channel_name rest i channel :
  ChatServer.GetComponent_User server_ = Some user_component →
  UserComponent.GetChatUser user_component client = Some chat_user →
  ChatUser.Identified (users chat_user) = true →
  String_Contains channel_name "#" = true →
  find_channel channels_ channel_name = Some (i, channel) →
  ChatChannel.Clients channel !! client = None →
  (∀ c u, ChatChannel.Operators channel !! c = Some u →
          ChatUser.Enabled (users u) = true) →
  (∀ c u, ChatChannel.Clients channel !! c = Some u →
          ChatUser.Enabled (users u) = true) →
  ChatUser.Enabled (users chat_user) = true →
  N.of_nat (size (ChatChannel.Operators channel)) < 2 ^ 32 →
  N.of_nat (S (size (ChatChannel.Clients channel))) < 2 ^ 32 →
  ∃ reply,
    read_join_reply
      <$> sent_to client kChannelMessageType_JoinChannel_Complete
            (outcome_log
               (Handle server_ users channels_ client
                  kChannelMessageType_JoinChannel (FString channel_name :: rest)))
    = [Some reply]
    ∧ operatorCount reply = N.of_nat (length (operator_entries reply))
    ∧ memberCount reply = N.of_nat (length (member_entries reply)).
Proof.
  intros Hcomponent Huser Hidentified Hname Hfind Hmember Hops Hclients Hself
    Hops_size Hclients_size.
  unfold Handle, Handle_JoinChannel. cbn [ReadString].
  rewrite Hcomponent, Huser, Hidentified, Hname, Hfind. cbn [negb].
  rewrite decide_False; cycle 1.
  { rewrite find_Clients_iff, Hmember. by intros [? ?]. }
  cbn [ChatChannel.set_Clients ChatChannel.Clients ChatChannel.Operators
       outcome_log].
  set (members := <[client := chat_user]> (ChatChannel.Clients channel)).
  assert (∀ c u, members !! c = Some u → ChatUser.Enabled (users u) = true)
    as Hmembers.
  { intros c u. unfold members. rewrite lookup_insert.
    case_decide; [by intros [= <-] | apply Hclients]. }
  assert (size members = S (size (ChatChannel.Clients channel))) as Hsize
    by by apply map_size_insert_None.
  rewrite !sent_to_app, sent_to_send_eq,
    sent_to_send_to_enabled_other by done.
  rewrite !write_enabled_users_spec, !enabled_entries_all by done.
  unfold WriteUInt32, WriteUInt16, CreateBuffer. rewrite Hsize.
  rewrite !N.mod_small by done.
  cbn [sent_to omap app fmap list_fmap]. rewrite <- !app_assoc.
  cbn [app read_join_reply].
  rewrite take_user_entries_fields by done.
  rewrite <- (app_nil_r (user_fields users (entries members))).
  rewrite take_user_entries_fields by done.
  eexists. split; [reflexivity |].
  cbn [operatorCount operator_entries memberCount member_entries].
  by rewrite !length_identities, Hsize.
Qed.

End Counts.

(** ** The requests of a resolved, identified user *)

Section Requests.
Variable server_ : ChatServer.t.
Variable users : Heap.
Variable user_component : UserComponent.t.
Variable client : Client.
Variable chat_user : UserPtr.
Hypothesis Hcomponent : ChatServer.GetComponent_User server_ = Some user_component.
Hypothesis Huser : UserComponent.GetChatUser user_component client = Some chat_user.
Hypothesis Hidentified : ChatUser.Identified (users chat_user) = true.

Ltac resolve_request :=
  unfold Handle, Handle_JoinChannel, Handle_LeaveChannel; cbn [ReadString];
  rewrite Hcomponent, Huser, Hidentified; cbn [negb].

(** C1: for an identified user and a channel name containing '#' that no
    enabled channel has, Join appends a new enabled channel of that name
    whose [Clients] and [Operators] each hold exactly the joiner, and sends
    the requester the reply ChannelCreated. *)
Theorem C1_join_creates_channel channels_ channel_name rest :
  String_Contains channel_name "#" = true →
  (∀ channel, channel ∈ channels_ → ChatChannel.Enabled channel = true →
              ChatChannel.Name channel ≠ channel_name) →
  ∃ chat_channel,
    Handle server_ users channels_ client kChannelMessageType_JoinChannel
      (FString channel_name :: rest)
    = Returned true (channels_ ++ [chat_channel])
        [SendUnicast client kComponentType_Channel
           kChannelMessageType_JoinChannel_Complete
           [FUInt16 kChannelMessageResult_ChannelCreated];
         OnJoinCompleted kChannelMessageResult_ChannelCreated chat_user;
         OnChannelCreated chat_channel;
         OnChannelJoined chat_channel chat_user]
    ∧ ChatChannel.Name chat_channel = channel_name
    ∧ ChatChannel.Enabled chat_channel = true
    ∧ ChatChannel.Clients chat_channel = {[client := chat_user]}
    ∧ size (ChatChannel.Clients chat_channel) = 1%nat
    ∧ ChatChannel.Operators chat_channel = {[client := chat_user]}
    ∧ size (ChatChannel.Operators chat_channel) = 1%nat.
Proof.
  intros Hname Hnone. apply find_channel_None in Hnone.
  eexists. split.
  - resolve_request. rewrite Hname, Hnone. cbn [negb]. reflexivity.
  - cbn [ChatChannel.Name ChatChannel.Enabled ChatChannel.Clients
         ChatChannel.Operators].
    rewrite insert_empty, map_size_singleton. done.
Qed.

(** C6: for an identified user and a channel name without '#', Join and
    Leave each reply InvalidChannelName to the requester and return the
    directory as it was. *)
Theorem C6_invalid_name_changes_nothing channels_ channel_name rest :
  String_Contains channel_name "#" = false →
  Handle server_ users channels_ client kChannelMessageType_JoinChannel
    (FString channel_name :: rest)
  = Returned true channels_
      [SendUnicast client kComponentType_Channel
         kChannelMessageType_JoinChannel_Complete
         [FUInt16 kChannelMessageResult_InvalidChannelName];
       OnJoinCompleted kChannelMessageResult_InvalidChannelName chat_user]
  ∧ Handle server_ users channels_ client kChannelMessageType_LeaveChannel
      (FString channel_name :: rest)
    = Returned true channels_
        [SendUnicast client kComponentType_Channel
           kChannelMessageType_LeaveChannel_Complete
           [FUInt16 kChannelMessageResult_InvalidChannelName];
         OnLeaveCompleted kChannelMessageResult_InvalidChannelName chat_user].
Proof. intros Hname. split; resolve_request; by rewrite Hname. Qed.

(** What Leave does for a member of the channel it names: it faults when
    the member was the last one, and otherwise notifies, removes and
    replies Ok. *)
Lemma Handle_LeaveChannel_member channels_ channel_name rest i channel :
  String_Contains channel_name "#" = true →
  find_channel channels_ channel_name = Some (i, channel) →
  is_Some (ChatChannel.Clients channel !! client) →
  let notices :=
    send_to_enabled users (ChatChannel.Clients channel)
      kChannelMessageType_LeaveChannel
      [FUInt16 kChannelMessageResult_UserLeft;
       FString (ChatUser.Username (users chat_user));
       FString (ChatUser.Hostname (users chat_user))]
    ++ [OnChannelLeft channel chat_user] in
  let remaining := delete client (ChatChannel.Clients channel) in
  Handle server_ users channels_ client kChannelMessageType_LeaveChannel
    (FString channel_name :: rest)
  = if decide (remaining = ∅) then
      NullDeref
        (<[i := ChatChannel.Build (ChatChannel.Name channel) false
                  (ChatChannel.Operators channel) remaining]> channels_)
        notices
    else
      Returned true
        (<[i := ChatChannel.Build (ChatChannel.Name channel)
                  (ChatChannel.Enabled channel)
                  (delete client (ChatChannel.Operators channel)) remaining]>
           channels_)
        (notices ++
         [SendUnicast client kComponentType_Channel
            kChannelMessageType_LeaveChannel_Complete
            [FUInt16 kChannelMessageResult_Ok; FString channel_name];
          OnLeaveCompleted kChannelMessageResult_Ok chat_user]).
Proof.
  intros Hname Hfind Hmember. resolve_request. rewrite Hname, Hfind. cbn [negb].
  rewrite decide_True by by apply find_Clients_iff.
  cbn [ChatChannel.set_Clients ChatChannel.Clients].
  destruct (decide (delete client (ChatChannel.Clients channel) = ∅)); [done |].
  by rewrite erase_operator_spec.
Qed.

(** C10: a Leave answered NotInChannel (the requester is not in [Clients]
    of the enabled channel of that name) returns the directory as it was,
    so [Operators] keeps the requester if it was there; one turn of the
    disconnect sweep on that same channel does erase the connection from
    [Operators]. *)
Theorem C10_not_in_channel_keeps_operators channels_ channel_name rest i channel :
  String_Contains channel_name "#" = true →
  find_channel channels_ channel_name = Some (i, channel) →
  ChatChannel.Clients channel !! client = None →
  Handle server_ users channels_ client kChannelMessageType_LeaveChannel
    (FString channel_name :: rest)
  = Returned true channels_
      [SendUnicast client kComponentType_Channel
         kChannelMessageType_LeaveChannel_Complete
         [FUInt16 kChannelMessageResult_NotInChannel];
       OnLeaveCompleted kChannelMessageResult_NotInChannel chat_user]
  ∧ disconnect_from users client channel
    = TurnDone
        (ChatChannel.set_Operators
           (delete client (ChatChannel.Operators channel)) channel)
        [].
Proof.
  intros Hname Hfind Hmember. split.
  - resolve_request. rewrite Hname, Hfind. cbn [negb].
    rewrite decide_False; [done |].
    rewrite find_Clients_iff, Hmember. by intros [? ?].
  - apply find_channel_Some in Hfind as (_ & Henabled & _).
    unfold disconnect_from. rewrite Henabled, Hmember.
    by rewrite erase_operator_spec.
Qed.

End Requests.

(** ** The result of Handle, and where the code leaves the specification *)

Ltac split_request server_ client buffer :=
  unfold unresolved;
  destruct (ReadString buffer) as [[? ?]|];
    [| by split; intros _; eauto];
  destruct (ChatServer.GetComponent_User server_) as [?uc|];
    [| by split; intros _; eauto];
  destruct (UserComponent.GetChatUser uc client) as [?chat_user|] eqn:?;
    [| by split; intros _; eauto 6].

Lemma Handle_JoinChannel_false_iff server_ users channels_ client buffer :
  (∃ channels' log,
     Handle_JoinChannel server_ users channels_ client buffer
     = Returned false channels' log)
  ↔ unresolved server_ client buffer.
Proof.
  unfold Handle_JoinChannel. split_request server_ client buffer.
  split.
  - intros (channels' & log & H). exfalso.
    repeat (match type of H with
            | context [if ?b then _ else _] => destruct b
            | context [find_channel ?l ?n] => destruct (find_channel l n) as [[? ?]|]
            end; try discriminate H).
  - intros [? | [? | (? & [= <-] & ?)]]; congruence.
Qed.

Lemma Handle_LeaveChannel_false_iff server_ users channels_ client buffer :
  (∃ channels' log,
     Handle_LeaveChannel server_ users channels_ client buffer
     = Returned false channels' log)
  ↔ unresolved server_ client buffer.
Proof.
  unfold Handle_LeaveChannel. split_request server_ client buffer.
  split.
  - intros (channels' & log & H). exfalso.
    repeat (match type of H with
            | context [if ?b then _ else _] => destruct b
            | context [find_channel ?l ?n] => destruct (find_channel l n) as [[? ?]|]
            end; try discriminate H).
  - intros [? | [? | (? & [= <-] & ?)]]; congruence.
Qed.

(** [Handle] returns false exactly when the message type is neither Join
    nor Leave, or the channel name cannot be read, or the user component or
    the user is not found. *)
Lemma Handle_false_iff server_ users channels_ client message_type buffer :
  (∃ channels' log,
     Handle server_ users channels_ client message_type buffer
     = Returned false channels' log)
  ↔ (message_type ≠ kChannelMessageType_JoinChannel
     ∧ message_type ≠ kChannelMessageType_LeaveChannel)
    ∨ unresolved server_ client buffer.
Proof.
  destruct message_type; simpl;
    rewrite ?Handle_JoinChannel_false_iff, ?Handle_LeaveChannel_false_iff;
    split; try tauto; try (intros _; left; by split); eauto.
Qed.

(** C2: the sole member of #general (its creator) leaves it. The
    specification has the channel disabled, the requester taken out of the
    operators and answered Ok; the call notifies, empties and disables the
    channel, resets its handle and then unlocks through it: it faults, with
    A still an operator and no reply sent. *)
Theorem C2_leave_by_last_member_faults :
  Scenario.A_alone
  = [ChatChannel.Build "#general" true
       {[Scenario.A := Scenario.user_A]} {[Scenario.A := Scenario.user_A]}]
  ∧ Handle Scenario.server Scenario.users Scenario.A_alone Scenario.A
      kChannelMessageType_LeaveChannel [FString "#general"]
    = NullDeref
        [ChatChannel.Build "#general" false {[Scenario.A := Scenario.user_A]} ∅]
        [SendUnicast Scenario.A kComponentType_Channel
           kChannelMessageType_LeaveChannel
           [FUInt16 kChannelMessageResult_UserLeft;
            FString "alice"; FString "host-a"];
         OnChannelLeft
           (ChatChannel.Build "#general" true
              {[Scenario.A := Scenario.user_A]}
              {[Scenario.A := Scenario.user_A]})
           Scenario.user_A].
Proof. split; vm_compute; reflexivity. Qed.

(** C3: A, the only member of #lobby and a member and the operator of
    #general beside B, disconnects. The specification has the sweep visit
    every channel; it faults in #lobby once it has disabled it, so A stays
    an operator of #lobby and a member and operator of #general, and B is
    told nothing. *)
Theorem C3_sweep_stops_at_emptied_channel :
  Scenario.A_in_two
  = [ChatChannel.Build "#lobby" true
       {[Scenario.A := Scenario.user_A]} {[Scenario.A := Scenario.user_A]};
     ChatChannel.Build "#general" true
       {[Scenario.A := Scenario.user_A]}
       (<[Scenario.B := Scenario.user_B]> {[Scenario.A := Scenario.user_A]})]
  ∧ OnClientDisconnected Scenario.users Scenario.A_in_two Scenario.A
    = NullDeref
        [ChatChannel.Build "#lobby" false {[Scenario.A := Scenario.user_A]} ∅;
         ChatChannel.Build "#general" true
           {[Scenario.A := Scenario.user_A]}
           (<[Scenario.B := Scenario.user_B]> {[Scenario.A := Scenario.user_A]})]
        [SendUnicast Scenario.A kComponentType_Channel
           kChannelMessageType_LeaveChannel
           [FUInt16 kChannelMessageResult_UserLeft;
            FString "alice"; FString "host-a"];
         OnChannelLeft
           (ChatChannel.Build "#lobby" true
              {[Scenario.A := Scenario.user_A]}
              {[Scenario.A := Scenario.user_A]})
           Scenario.user_A].
Proof. split; vm_compute; reflexivity. Qed.

(** C4: B joins #general while the record of its operator and member A is
    disabled. The specification has each count equal the number of entries
    after it; the reply counts one operator and lists none, and counts two
    members and lists one. *)
Theorem C4_counts_include_disabled_users :
  read_join_reply
    <$> sent_to Scenario.B kChannelMessageType_JoinChannel_Complete
          (outcome_log
             (Handle Scenario.server Scenario.users_A_disabled Scenario.A_alone
                Scenario.B kChannelMessageType_JoinChannel [FString "#general"]))
  = [Some {| operatorCount := 1; operator_entries := [];
             memberCount := 2; member_entries := [("bob", "host-b")] |}].
Proof. vm_compute. reflexivity. Qed.

(** C7: a Leave request that is recognised, whose channel name reads and
    whose user resolves, yet does not return: the one of the last member of
    a channel. The specification has every such request return true. *)
Theorem C7_resolved_leave_does_not_return :
  ReadString [FString "#general"] = Some ("#general", [])
  ∧ ChatServer.GetComponent_User Scenario.server = Some Scenario.user_component
  ∧ UserComponent.GetChatUser Scenario.user_component Scenario.A
    = Some Scenario.user_A
  ∧ ∀ result channels' log,
      Handle Scenario.server Scenario.users Scenario.A_alone Scenario.A
        kChannelMessageType_LeaveChannel [FString "#general"]
      ≠ Returned result channels' log.
Proof.
  split_and!; try reflexivity.
  intros result channels' log H. vm_compute in H. discriminate H.
Qed.

(** ** The second joiner *)

(** C5, as the spec states it, fails: A is the sole member and operator of
    #general and B joins; the member list of B's reply is not [A]. *)
Lemma C5_member_list_is_not_A_alone :
  ¬ ∃ reply,
      read_join_reply
        <$> sent_to Scenario.B kChannelMessageType_JoinChannel_Complete
              (outcome_log
                 (Handle Scenario.server Scenario.users Scenario.A_alone
                    Scenario.B kChannelMessageType_JoinChannel
                    [FString "#general"]))
      = [Some reply]
      ∧ operator_entries reply = [identity Scenario.users Scenario.user_A]
      ∧ member_entries reply = [identity Scenario.users Scenario.user_A].
Proof.
  intros (reply & Hreply & _ & Hmembers).
  vm_compute in Hreply. injection Hreply as <-. discriminate Hmembers.
Qed.

(** C5, amended: when A (enabled) is the sole member and operator of an
    enabled channel and a distinct identified, enabled connection B joins
    it, B receives an Ok reply that counts one operator and lists A, and
    counts two members and lists A and B in map order (the joiner is added
    before the list is written), and A receives one UserJoined broadcast
    with B's username and hostname. *)
Theorem C5_second_joiner_is_listed server_ users user_component channels_
    (A B : Client) user_A user_B channel_name rest i channel :
  ChatServer.GetComponent_User server_ = Some user_component →
  UserComponent.GetChatUser user_component B = Some user_B →
  ChatUser.Identified (users user_B) = true →
  ChatUser.Enabled (users user_A) = true →
  ChatUser.Enabled (users user_B) = true →
  A ≠ B →
  String_Contains channel_name "#" = true →
  find_channel channels_ channel_name = Some (i, channel) →
  ChatChannel.Clients channel = {[A := user_A]} →
  ChatChannel.Operators channel = {[A := user_A]} →
  ∃ channels' log reply,
    Handle server_ users channels_ B kChannelMessageType_JoinChannel
      (FString channel_name :: rest)
    = Returned true channels' log
    ∧ read_join_reply <$> sent_to B kChannelMessageType_JoinChannel_Complete log
      = [Some reply]
    ∧ operatorCount reply = 1
    ∧ operator_entries reply = [identity users user_A]
    ∧ memberCount reply = 2
    ∧ member_entries reply
      = (if decide (A < B)
         then [identity users user_A; identity users user_B]
         else [identity users user_B; identity users user_A])
    ∧ sent_to A kChannelMessageType_JoinChannel log
      = [[FUInt16 kChannelMessageResult_UserJoined;
          FString (ChatUser.Username (users user_B));
          FString (ChatUser.Hostname (users user_B))]].
Proof.
  intros Hcomponent Huser Hidentified HenA HenB Hne Hname Hfind Hclients Hops.
  unfold Handle, Handle_JoinChannel. cbn [ReadString].
  rewrite Hcomponent, Huser, Hidentified, Hname, Hfind. cbn [negb].
  rewrite decide_False; cycle 1.
  { rewrite find_Clients_iff, Hclients, lookup_singleton_ne by done.
    by intros [? ?]. }
  cbn [ChatChannel.set_Clients ChatChannel.Clients ChatChannel.Operators].
  rewrite Hclients, Hops.
  rewrite !write_enabled_users_spec, send_to_enabled_spec.
  rewrite map_size_singleton, map_size_insert_None, map_size_singleton
    by by apply lookup_singleton_ne.
  unfold enabled_entries. rewrite entries_singleton.
  assert (entries (<[B := user_B]> {[A := user_A]})
          = if decide (A < B) then [(A, user_A); (B, user_B)]
            else [(B, user_B); (A, user_A)]) as ->.
  { case_decide as Hlt.
    - by apply entries_pair.
    - apply entries_pair. lia. }
  set (idA := identity users user_A). set (idB := identity users user_B).
  eexists _, _,
    (Build_JoinReply 1 [idA] 2 (if decide (A < B) then [idA; idB] else [idB; idA])).
  split; [reflexivity |]. cbn [operatorCount operator_entries memberCount
                                member_entries].
  change (N.of_nat 1 `mod` 2 ^ 32) with 1.
  change (N.of_nat 2 `mod` 2 ^ 32) with 2.
  case_decide;
    rewrite !filter_cons_True, !filter_nil by done;
    cbn [fmap list_fmap app fst snd];
    rewrite sent_to_send_eq, !sent_to_send_ne by (right; done);
    rewrite ?sent_to_send_eq, ?sent_to_send_ne by (left; done);
    rewrite ?sent_to_send_eq, ?sent_to_send_ne by (left; done);
    split_and!; reflexivity.
Qed.

(** ** The directory over any sequence of operations *)

(** C8: in every directory that a sequence of Join, Leave and disconnect
    operations leads to, at most one enabled channel has any given name. *)
Theorem C8_enabled_names_are_unique channels_ :
  reachable channels_ → unique_enabled_names channels_.
Proof.
  induction 1 as [|op channels_ _ IH].
  - intros i j channel_i channel_j Hi. by rewrite lookup_nil in Hi.
  - eapply grows_from_unique; [apply run_grows | done].
Qed.

(** C9: no Join, Leave or disconnect removes an entry of the vector: it
    does not get shorter, every position keeps its entry's name, and a
    channel whose last member went is still in its place, disabled; only
    Shutdown and OnStop clear the vector. *)
Theorem C9_directory_never_shrinks channels_ :
  (∀ op, never_removes channels_ (run op channels_))
  ∧ (Shutdown channels_).2 = []
  ∧ (OnStop channels_).2 = [].
Proof.
  split_and!.
  - intros op. apply grows_from_never_removes, run_grows.
  - by destruct channels_.
  - by destruct channels_.
Qed.

(** ** The theorems at the scenario *)

(** C1 where a disabled channel already has the name: the name is used
    again. *)
Lemma C1_join_creates_channel_witness :
  let old := ChatChannel.Build "#general" false ∅ ∅ in
  ∃ chat_channel,
    Handle Scenario.server Scenario.users [old] Scenario.A
      kChannelMessageType_JoinChannel [FString "#general"]
    = Returned true ([old] ++ [chat_channel])
        [SendUnicast Scenario.A kComponentType_Channel
           kChannelMessageType_JoinChannel_Complete
           [FUInt16 kChannelMessageResult_ChannelCreated];
         OnJoinCompleted kChannelMessageResult_ChannelCreated Scenario.user_A;
         OnChannelCreated chat_channel;
         OnChannelJoined chat_channel Scenario.user_A]
    ∧ ChatChannel.Name chat_channel = "#general"
    ∧ ChatChannel.Enabled chat_channel = true
    ∧ ChatChannel.Clients chat_channel = {[Scenario.A := Scenario.user_A]}
    ∧ size (ChatChannel.Clients chat_channel) = 1%nat
    ∧ ChatChannel.Operators chat_channel = {[Scenario.A := Scenario.user_A]}
    ∧ size (ChatChannel.Operators chat_channel) = 1%nat.
Proof.
  intros old.
  apply (C1_join_creates_channel Scenario.server Scenario.users
           Scenario.user_component Scenario.A Scenario.user_A);
    [reflexivity | reflexivity | reflexivity | reflexivity |].
  intros channel Hin Henabled.
  apply list_elem_of_singleton in Hin as ->. discriminate Henabled.
Defined.

(** C6 for B and the name "general". *)
Lemma C6_invalid_name_changes_nothing_witness :
  String_Contains "general" "#" = false
  ∧ Handle Scenario.server Scenario.users Scenario.A_alone Scenario.B
      kChannelMessageType_JoinChannel [FString "general"]
    = Returned true Scenario.A_alone
        [SendUnicast Scenario.B kComponentType_Channel
           kChannelMessageType_JoinChannel_Complete
           [FUInt16 kChannelMessageResult_InvalidChannelName];
         OnJoinCompleted kChannelMessageResult_InvalidChannelName Scenario.user_B]
  ∧ Handle Scenario.server Scenario.users Scenario.A_alone Scenario.B
      kChannelMessageType_LeaveChannel [FString "general"]
    = Returned true Scenario.A_alone
        [SendUnicast Scenario.B kComponentType_Channel
           kChannelMessageType_LeaveChannel_Complete
           [FUInt16 kChannelMessageResult_InvalidChannelName];
         OnLeaveCompleted kChannelMessageResult_InvalidChannelName Scenario.user_B].
Proof.
  split; [reflexivity |].
  apply (C6_invalid_name_changes_nothing Scenario.server Scenario.users
           Scenario.user_component Scenario.B Scenario.user_B);
    reflexivity.
Defined.

(** C10 for A, an operator of #general that is not among its members. *)
Lemma C10_not_in_channel_keeps_operators_witness :
  ChatChannel.Operators Scenario.A_only_operator !! Scenario.A
  = Some Scenario.user_A
  ∧ Handle Scenario.server Scenario.users [Scenario.A_only_operator] Scenario.A
      kChannelMessageType_LeaveChannel [FString "#general"]
    = Returned true [Scenario.A_only_operator]
        [SendUnicast Scenario.A kComponentType_Channel
           kChannelMessageType_LeaveChannel_Complete
           [FUInt16 kChannelMessageResult_NotInChannel];
         OnLeaveCompleted kChannelMessageResult_NotInChannel Scenario.user_A]
  ∧ disconnect_from Scenario.users Scenario.A Scenario.A_only_operator
    = TurnDone
        (ChatChannel.set_Operators
           (delete Scenario.A (ChatChannel.Operators Scenario.A_only_operator))
           Scenario.A_only_operator)
        [].
Proof.
  split; [vm_compute; reflexivity |].
  apply (C10_not_in_channel_keeps_operators Scenario.server Scenario.users
           Scenario.user_component Scenario.A Scenario.user_A
           eq_refl eq_refl eq_refl [Scenario.A_only_operator] "#general" [] 0%nat);
    vm_compute; reflexivity.
Defined.

(** C5, amended, for A and B of the scenario. *)
Lemma C5_second_joiner_is_listed_witness :
  ∃ channels' log reply,
    Handle Scenario.server Scenario.users Scenario.A_alone Scenario.B
      kChannelMessageType_JoinChannel [FString "#general"]
    = Returned true channels' log
    ∧ read_join_reply
        <$> sent_to Scenario.B kChannelMessageType_JoinChannel_Complete log
      = [Some reply]
    ∧ operatorCount reply = 1
    ∧ operator_entries reply = [("alice", "host-a")]
    ∧ memberCount reply = 2
    ∧ member_entries reply = [("alice", "host-a"); ("bob", "host-b")]
    ∧ sent_to Scenario.A kChannelMessageType_JoinChannel log
      = [[FUInt16 kChannelMessageResult_UserJoined;
          FString "bob"; FString "host-b"]].
Proof.
  apply (C5_second_joiner_is_listed Scenario.server Scenario.users
           Scenario.user_component Scenario.A_alone Scenario.A Scenario.B
           Scenario.user_A Scenario.user_B "#general" [] 0%nat
           (ChatChannel.Build "#general" true
              {[Scenario.A := Scenario.user_A]}
              {[Scenario.A := Scenario.user_A]}));
    try (vm_compute; reflexivity).
  discriminate.
Defined.

(** C8 for the directory after three joins. *)
Lemma C8_enabled_names_are_unique_witness :
  reachable Scenario.A_in_two ∧ unique_enabled_names Scenario.A_in_two.
Proof.
  assert (reachable Scenario.A_in_two) as H.
  { unfold Scenario.A_in_two. do 3 apply reachable_run. apply reachable_start. }
  split; [exact H | apply (C8_enabled_names_are_unique _ H)].
Defined.


(** ** The other replies of Join and Leave *)

Section Replies.
Variable server_ : ChatServer.t.
Variable users : Heap.
Variable user_component : UserComponent.t.
Variable client : Client.
Variable chat_user : UserPtr.
Hypothesis Hcomponent : ChatServer.GetComponent_User server_ = Some user_component.
Hypothesis Huser : UserComponent.GetChatUser user_component client = Some chat_user.

Ltac resolve_user :=
  unfold Handle, Handle_JoinChannel, Handle_LeaveChannel; cbn [ReadString];
  rewrite Hcomponent, Huser.

(** X1: a user that has not identified itself is answered NotIdentified by
    Join and by Leave, whatever the channel name, valid or not, and
    whatever the directory holds; the directory stays as it was. *)
Theorem not_identified_changes_nothing channels_ channel_name rest :
  ChatUser.Identified (users chat_user) = false →
  Handle server_ users channels_ client kChannelMessageType_JoinChannel
    (FString channel_name :: rest)
  = Returned true channels_
      [SendUnicast client kComponentType_Channel
         kChannelMessageType_JoinChannel_Complete
         [FUInt16 kChannelMessageResult_NotIdentified];
       OnJoinCompleted kChannelMessageResult_NotIdentified chat_user]
  ∧ Handle server_ users channels_ client kChannelMessageType_LeaveChannel
      (FString channel_name :: rest)
    = Returned true channels_
        [SendUnicast client kComponentType_Channel
           kChannelMessageType_LeaveChannel_Complete
           [FUInt16 kChannelMessageResult_NotIdentified];
         OnLeaveCompleted kChannelMessageResult_NotIdentified chat_user].
Proof. intros Hid. split; resolve_user; by rewrite Hid. Qed.

Hypothesis Hidentified : ChatUser.Identified (users chat_user) = true.

(** X2: a member of the enabled channel of that name that joins it again is
    answered AlreadyInChannel; nobody else is told and the directory stays
    as it was. *)
Theorem join_by_member_changes_nothing channels_ channel_name rest i channel :
  String_Contains channel_name "#" = true →
  find_channel channels_ channel_name = Some (i, channel) →
  is_Some (ChatChannel.Clients channel !! client) →
  Handle server_ users channels_ client kChannelMessageType_JoinChannel
    (FString channel_name :: rest)
  = Returned true channels_
      [SendUnicast client kComponentType_Channel
         kChannelMessageType_JoinChannel_Complete
         [FUInt16 kChannelMessageResult_AlreadyInChannel];
       OnJoinCompleted kChannelMessageResult_AlreadyInChannel chat_user].
Proof.
  intros Hname Hfind Hmember. resolve_user.
  rewrite Hidentified, Hname, Hfind. cbn [negb].
  by rewrite decide_True by by apply find_Clients_iff.
Qed.

(** X3: a Leave that names a channel no enabled entry has is answered
    InvalidChannelName and changes nothing: a channel that never existed,
    and also a disabled one that still lists the requester. *)
Theorem leave_without_channel_changes_nothing channels_ channel_name rest :
  String_Contains channel_name "#" = true →
  (∀ channel, channel ∈ channels_ → ChatChannel.Enabled channel = true →
              ChatChannel.Name channel ≠ channel_name) →
  Handle server_ users channels_ client kChannelMessageType_LeaveChannel
    (FString channel_name :: rest)
  = Returned true channels_
      [SendUnicast client kComponentType_Channel
         kChannelMessageType_LeaveChannel_Complete
         [FUInt16 kChannelMessageResult_InvalidChannelName];
       OnLeaveCompleted kChannelMessageResult_InvalidChannelName chat_user].
Proof.
  intros Hname Hnone%find_channel_None. resolve_user.
  by rewrite Hidentified, Hname, Hnone.
Qed.

End Replies.

Lemma not_identified_changes_nothing_witness :
  ChatUser.Identified (Guests.users Guests.user_G) = false
  ∧ Handle Guests.server Guests.users Guests.A_and_B Guests.G
      kChannelMessageType_JoinChannel [FString "general"]
    = Returned true Guests.A_and_B
        [SendUnicast Guests.G kComponentType_Channel
           kChannelMessageType_JoinChannel_Complete
           [FUInt16 kChannelMessageResult_NotIdentified];
         OnJoinCompleted kChannelMessageResult_NotIdentified Guests.user_G]
  ∧ Handle Guests.server Guests.users Guests.A_and_B Guests.G
      kChannelMessageType_LeaveChannel [FString "general"]
    = Returned true Guests.A_and_B
        [SendUnicast Guests.G kComponentType_Channel
           kChannelMessageType_LeaveChannel_Complete
           [FUInt16 kChannelMessageResult_NotIdentified];
         OnLeaveCompleted kChannelMessageResult_NotIdentified Guests.user_G].
Proof.
  split; [reflexivity |].
  apply (not_identified_changes_nothing Guests.server Guests.users
           Guests.user_component Guests.G Guests.user_G);
    reflexivity.
Defined.

Lemma join_by_member_changes_nothing_witness :
  Handle Scenario.server Scenario.users Guests.A_and_B Scenario.B
    kChannelMessageType_JoinChannel [FString "#general"]
  = Returned true Guests.A_and_B
      [SendUnicast Scenario.B kComponentType_Channel
         kChannelMessageType_JoinChannel_Complete
         [FUInt16 kChannelMessageResult_AlreadyInChannel];
       OnJoinCompleted kChannelMessageResult_AlreadyInChannel Scenario.user_B].
Proof.
  apply (join_by_member_changes_nothing Scenario.server Scenario.users
           Scenario.user_component Scenario.B Scenario.user_B
           eq_refl eq_refl eq_refl Guests.A_and_B "#general" [] 0%nat
           (ChatChannel.Build "#general" true
              {[Scenario.A := Scenario.user_A]}
              (<[Scenario.B := Scenario.user_B]>
                 {[Scenario.A := Scenario.user_A]})));
    [reflexivity | vm_compute; reflexivity | vm_compute; eauto].
Defined.

Lemma leave_without_channel_changes_nothing_witness :
  Handle Scenario.server Scenario.users Guests.closed_general Scenario.A
    kChannelMessageType_LeaveChannel [FString "#general"]
  = Returned true Guests.closed_general
      [SendUnicast Scenario.A kComponentType_Channel
         kChannelMessageType_LeaveChannel_Complete
         [FUInt16 kChannelMessageResult_InvalidChannelName];
       OnLeaveCompleted kChannelMessageResult_InvalidChannelName Scenario.user_A].
Proof.
  apply (leave_without_channel_changes_nothing Scenario.server Scenario.users
           Scenario.user_component Scenario.A Scenario.user_A
           eq_refl eq_refl eq_refl Guests.closed_general "#general" [] eq_refl).
  apply find_channel_None. reflexivity.
Defined.

(** ** Every call as a step of the directory *)

Lemma channel_steps_untouched client (channels_ : list ChatChannel.t) :
  Forall2 (channel_step client) channels_ channels_.
Proof. apply Forall_Forall2_diag, Forall_forall. intros. constructor. Qed.

Lemma directory_step_untouched client channels_ :
  directory_step client channels_ channels_.
Proof.
  exists channels_, []. rewrite app_nil_r.
  split_and!; [done | apply channel_steps_untouched | by left].
Qed.

Lemma directory_step_update client channels_ i channel channel' :
  channels_ !! i = Some channel → channel_step client channel channel' →
  directory_step client channels_ (<[i := channel']> channels_).
Proof.
  intros Hi Hstep. exists (<[i := channel']> channels_), [].
  rewrite app_nil_r. split_and!; [done | | by left].
  rewrite <- (list_insert_id channels_ i channel) at 1 by done.
  apply Forall2_insert; [apply channel_steps_untouched | done].
Qed.

Lemma find_Clients_end (m : gmap Client UserPtr) client :
  ¬ find ClientsMap m client ≠ iterator_end ClientsMap ↔ m !! client = None.
Proof.
  rewrite find_Clients_iff, eq_None_not_Some. tauto.
Qed.

Section DirectorySteps.
Variable server_ : ChatServer.t.
Variable users : Heap.

Lemma Handle_JoinChannel_step channels_ client buffer :
  directory_step client channels_
    (outcome_channels (Handle_JoinChannel server_ users channels_ client buffer)).
Proof.
  unfold Handle_JoinChannel.
  destruct (ReadString buffer) as [[channel_name ?]|];
    [| apply directory_step_untouched].
  destruct (ChatServer.GetComponent_User server_) as [user_component|];
    [| apply directory_step_untouched].
  destruct (UserComponent.GetChatUser user_component client) as [chat_user|];
    [| apply directory_step_untouched].
  destruct (negb (ChatUser.Identified (users chat_user)));
    [apply directory_step_untouched |].
  destruct (negb (String_Contains channel_name "#")) eqn:Hname;
    [apply directory_step_untouched |].
  apply negb_false_iff in Hname.
  destruct (find_channel channels_ channel_name) as [[i channel]|] eqn:Hfind.
  - apply find_channel_Some in Hfind as (Hi & Henabled & _).
    case_decide as Hmember; [apply directory_step_untouched |].
    cbn [outcome_channels].
    eapply directory_step_update; [done |].
    apply step_joined; [done |].
    apply find_Clients_end. intros Hne. exact (Hne Hmember).
  - simpl. exists channels_, [created_channel channel_name client chat_user].
    split_and!; [done | apply channel_steps_untouched |].
    right. by exists channel_name, chat_user.
Qed.

Lemma Handle_LeaveChannel_step channels_ client buffer :
  directory_step client channels_
    (outcome_channels (Handle_LeaveChannel server_ users channels_ client buffer)).
Proof.
  unfold Handle_LeaveChannel.
  destruct (ReadString buffer) as [[channel_name ?]|];
    [| apply directory_step_untouched].
  destruct (ChatServer.GetComponent_User server_) as [user_component|];
    [| apply directory_step_untouched].
  destruct (UserComponent.GetChatUser user_component client) as [chat_user|];
    [| apply directory_step_untouched].
  destruct (negb (ChatUser.Identified (users chat_user)));
    [apply directory_step_untouched |].
  destruct (negb (String_Contains channel_name "#"));
    [apply directory_step_untouched |].
  destruct (find_channel channels_ channel_name) as [[i channel]|] eqn:Hfind;
    [| apply directory_step_untouched].
  apply find_channel_Some in Hfind as (Hi & Henabled & _).
  case_decide as Hmember; [| apply directory_step_untouched].
  apply find_Clients_iff in Hmember.
  cbn [ChatChannel.set_Clients ChatChannel.Clients].
  case_decide as Hempty; simpl.
  - eapply directory_step_update; [done |]. by apply step_emptied.
  - eapply directory_step_update; [done |]. by apply step_left.
Qed.

Lemma disconnect_from_step client channel :
  match disconnect_from users client channel with
  | TurnDone channel' _ | TurnNullDeref channel' _ =>
    channel_step client channel channel'
  end.
Proof.
  unfold disconnect_from.
  destruct (ChatChannel.Enabled channel) eqn:Henabled; [| constructor].
  destruct (ChatChannel.Clients channel !! client) as [chat_user|] eqn:Hmember.
  - cbn [ChatChannel.set_Clients ChatChannel.Clients].
    case_decide as Hempty.
    + apply step_emptied; [done | by rewrite Hmember | done].
    + apply step_left; [done | by rewrite Hmember | done].
  - by apply step_operator_erased.
Qed.

Lemma disconnect_loop_step client visited ahead log :
  ∃ ahead',
    outcome_channels (disconnect_loop users client visited ahead log)
    = visited ++ ahead'
    ∧ Forall2 (channel_step client) ahead ahead'.
Proof.
  revert visited log. induction ahead as [|channel ahead IH]; intros visited log.
  - exists []. simpl. rewrite app_nil_r. by split; [| constructor].
  - simpl. pose proof (disconnect_from_step client channel) as Hstep.
    destruct (disconnect_from users client channel) as [channel' log'|channel' log'].
    + destruct (IH (visited ++ [channel']) (log ++ log')) as (ahead' & -> & Hall).
      exists (channel' :: ahead'). rewrite <- app_assoc. by split; [| constructor].
    + exists (channel' :: ahead). simpl.
      split; [done |]. constructor; [done | apply channel_steps_untouched].
Qed.

End DirectorySteps.

(** Every operation is a step of the directory, made for its connection. *)
Lemma run_directory_step op channels_ :
  ∃ client, directory_step client channels_ (run op channels_).
Proof.
  destruct op as [server_ users client message_type buffer | users client];
    exists client; simpl.
  - destruct message_type; simpl;
      auto using Handle_JoinChannel_step, Handle_LeaveChannel_step,
                 directory_step_untouched.
  - destruct (disconnect_loop_step users client [] channels_ [])
      as (kept & Heq & Hall).
    exists kept, []. rewrite app_nil_r. by split_and!; [| | left].
Qed.

(** ** What every reachable directory satisfies *)

Lemma created_channel_well_formed channel_name client chat_user :
  String_Contains channel_name "#" = true →
  well_formed (created_channel channel_name client chat_user).
Proof.
  intros Hname. unfold well_formed, created_channel. simpl.
  rewrite insert_empty, map_size_singleton. by split_and!.
Qed.

Lemma channel_step_well_formed client channel channel' :
  channel_step client channel channel' →
  well_formed channel → well_formed channel'.
Proof.
  intros Hstep (Hname & Hsize & Henabled).
  destruct Hstep as [channel | channel chat_user He Hc | channel He Hc Hrest
                     | channel He Hc Hrest | channel He Hc];
    rewrite ?erase_operator_spec; destruct channel as [name enabled ops clients];
    unfold well_formed; simpl in *; subst;
    try destruct (Henabled eq_refl) as [Hmembers Hsub].
  - done.
  - split_and!; try done. intros _. split.
    + apply insert_non_empty.
    + apply insert_subseteq_r; [| done]. by eapply lookup_weaken_None.
  - split_and!; try done.
    + etrans; [| exact Hsize]. apply map_subseteq_size, delete_subseteq.
    + intros _. split; [done | by apply delete_mono].
  - by split_and!.
  - split_and!; try done.
    + etrans; [| exact Hsize]. apply map_subseteq_size, delete_subseteq.
    + intros _. split; [done |]. etrans; [apply delete_subseteq | done].
Qed.

Lemma directory_step_well_formed client channels_ channels' :
  directory_step client channels_ channels' →
  Forall well_formed channels_ → Forall well_formed channels'.
Proof.
  intros (kept & created & -> & Hall & Hcreated) Hwf.
  apply Forall_app. split.
  - clear Hcreated. induction Hall as [|channel channel' ? ? Hstep _ IH];
      [done |].
    apply Forall_cons in Hwf as [Hwf1 Hwf2].
    constructor; [by eapply channel_step_well_formed | by apply IH].
  - destruct Hcreated as [-> | (name & chat_user & -> & Hname & _)]; [done |].
    constructor; [by apply created_channel_well_formed | done].
Qed.

Lemma reachable_well_formed channels_ :
  reachable channels_ → Forall well_formed channels_.
Proof.
  induction 1 as [|op channels_ _ IH]; [done |].
  destruct (run_directory_step op channels_) as [client Hstep].
  by eapply directory_step_well_formed.
Qed.

(** X19: in every directory that Join, Leave and disconnect operations lead
    to, an enabled channel has at least one member: the channel that loses
    its last member is disabled in the same call. *)
Theorem enabled_channel_has_a_member channels_ channel :
  reachable channels_ → channel ∈ channels_ →
  ChatChannel.Enabled channel = true →
  ChatChannel.Clients channel ≠ ∅.
Proof.
  intros Hreach Hin Henabled.
  apply reachable_well_formed in Hreach.
  rewrite Forall_forall in Hreach.
  by destruct (Hreach _ Hin) as (_ & _ & [? ?]).
Qed.

(** X20: in every such directory the name of every channel, enabled or not,
    has a '#': a name without one never gets into the directory. *)
Theorem channel_names_have_a_hash channels_ channel :
  reachable channels_ → channel ∈ channels_ →
  String_Contains (ChatChannel.Name channel) "#" = true.
Proof.
  intros Hreach Hin. apply reachable_well_formed in Hreach.
  rewrite Forall_forall in Hreach. by destruct (Hreach _ Hin).
Qed.

(** X21: in every such directory a channel has at most one operator: its
    creator is made one, and no Join of an existing channel adds another. *)
Theorem at_most_one_operator channels_ channel :
  reachable channels_ → channel ∈ channels_ →
  (size (ChatChannel.Operators channel) ≤ 1)%nat.
Proof.
  intros Hreach Hin. apply reachable_well_formed in Hreach.
  rewrite Forall_forall in Hreach. by destruct (Hreach _ Hin) as (_ & ? & _).
Qed.

(** X22: in every such directory the operators of an enabled channel are
    members of it, listed with the same user. *)
Theorem operators_are_members channels_ channel client chat_user :
  reachable channels_ → channel ∈ channels_ →
  ChatChannel.Enabled channel = true →
  ChatChannel.Operators channel !! client = Some chat_user →
  ChatChannel.Clients channel !! client = Some chat_user.
Proof.
  intros Hreach Hin Henabled Hop. apply reachable_well_formed in Hreach.
  rewrite Forall_forall in Hreach.
  destruct (Hreach _ Hin) as (_ & _ & Hen). destruct (Hen Henabled) as [_ Hsub].
  by eapply lookup_weaken.
Qed.

(** X23: no operation changes a disabled entry of the vector: the lookup by
    name and the disconnect sweep both pass over it, so a channel is never
    enabled again. *)
Theorem disabled_entry_is_frozen op channels_ i channel :
  channels_ !! i = Some channel →
  ChatChannel.Enabled channel = false →
  run op channels_ !! i = Some channel.
Proof.
  intros Hi Hdisabled.
  destruct (run_directory_step op channels_)
    as (client & kept & created & -> & Hall & _).
  destruct (Forall2_lookup_l _ _ _ _ _ Hall Hi) as (channel' & Hk & Hstep).
  apply lookup_app_l_Some.
  destruct Hstep; congruence.
Qed.

(** ** Who is told of a Join or a Leave *)

Section Broadcast.
Variable users : Heap.

Lemma entries_NoDup (m : gmap Client UserPtr) : NoDup (entries m).
Proof. rewrite entries_Permutation. apply NoDup_map_to_list. Qed.

Lemma enabled_entries_of_key (m : gmap Client UserPtr) client :
  filter (λ pair, pair.1 = client) (enabled_entries users m)
  = match m !! client with
    | Some user => if ChatUser.Enabled (users user) then [(client, user)] else []
    | None => []
    end.
Proof.
  assert (∀ pair, pair ∈ filter (λ pair, pair.1 = client) (enabled_entries users m)
                  ↔ ∃ user, pair = (client, user) ∧ m !! client = Some user
                            ∧ ChatUser.Enabled (users user) = true) as Hin.
  { intros [c u]. rewrite list_elem_of_filter, elem_of_enabled_entries. simpl.
    split.
    - intros (-> & ? & ?). eauto.
    - intros (user & [= -> ->] & ? & ?). eauto. }
  assert (NoDup (filter (λ pair, pair.1 = client) (enabled_entries users m)))
    as Hnodup by (do 2 apply NoDup_filter; apply entries_NoDup).
  destruct (m !! client) as [user|] eqn:Hm;
    [destruct (ChatUser.Enabled (users user)) eqn:He |].
  - apply Permutation_singleton_r, NoDup_Permutation;
      [done | apply NoDup_singleton |].
    intros pair. rewrite Hin, list_elem_of_singleton. split.
    + by intros (u & -> & [= <-] & _).
    + intros ->. eauto.
  - apply Permutation_nil_r, NoDup_Permutation; [done | constructor |].
    intros pair. rewrite Hin, elem_of_nil. split; [| done].
    intros (u & _ & [= <-] & ?). congruence.
  - apply Permutation_nil_r, NoDup_Permutation; [done | constructor |].
    intros pair. rewrite Hin, elem_of_nil. split; [| done].
    by intros (u & _ & ? & _).
Qed.

Lemma sent_to_fmap_send client message_type buffer (l : list (Client * UserPtr)) :
  sent_to client message_type
    ((λ pair, SendUnicast pair.1 kComponentType_Channel message_type buffer) <$> l)
  = (λ _, buffer) <$> filter (λ pair, pair.1 = client) l.
Proof.
  induction l as [|[c u] l IH]; [done |]. cbn [fmap list_fmap].
  destruct (decide (c = client)) as [-> | Hne].
  - rewrite sent_to_send_eq, filter_cons_True by done. simpl. by f_equal.
  - rewrite sent_to_send_ne, filter_cons_False by (try left; done). done.
Qed.

(** A broadcast reaches each connection of the map whose user is enabled
    exactly once, and nobody else. *)
Lemma sent_to_send_to_enabled (m : gmap Client UserPtr) client message_type buffer :
  sent_to client message_type (send_to_enabled users m message_type buffer)
  = copies users m client buffer.
Proof.
  rewrite send_to_enabled_spec, sent_to_fmap_send, enabled_entries_of_key.
  unfold copies. destruct (m !! client) as [user|]; [| done].
  by destruct (ChatUser.Enabled (users user)).
Qed.

End Broadcast.

(** ** The lookup after an update *)

Lemma find_channel_insert channels_ channel_name i channel channel' :
  find_channel channels_ channel_name = Some (i, channel) →
  ChatChannel.Name channel' = ChatChannel.Name channel →
  ChatChannel.Enabled channel' = true →
  find_channel (<[i := channel']> channels_) channel_name = Some (i, channel').
Proof.
  rewrite !find_channel_Some. intros (Hi & He & Hn & Hfirst) Hname Henabled.
  split_and!; [| done | congruence |].
  - apply list_lookup_insert_eq. by eapply lookup_lt_Some.
  - intros j other Hj Hlt. rewrite list_lookup_insert_ne in Hj by lia. eauto.
Qed.

Lemma find_channel_app_new channels_ channel_name channel :
  find_channel channels_ channel_name = None →
  ChatChannel.Enabled channel = true →
  ChatChannel.Name channel = channel_name →
  find_channel (channels_ ++ [channel]) channel_name
  = Some (length channels_, channel).
Proof.
  rewrite find_channel_None, find_channel_Some. intros Hnone He Hn.
  split_and!; [| done | done |].
  - by rewrite lookup_app_r, Nat.sub_diag.
  - intros j other Hj Hlt [He' Hn']. rewrite lookup_app_l in Hj by done.
    apply (Hnone other); [by eapply list_elem_of_lookup_2 | done | done].
Qed.

(** ** Joining a channel that exists *)

Section Joining.
Variable server_ : ChatServer.t.
Variable users : Heap.
Variable user_component : UserComponent.t.
Variable client : Client.
Variable chat_user : UserPtr.
Hypothesis Hcomponent : ChatServer.GetComponent_User server_ = Some user_component.
Hypothesis Huser : UserComponent.GetChatUser user_component client = Some chat_user.
Hypothesis Hidentified : ChatUser.Identified (users chat_user) = true.

(** What Join does for a connection that is not yet in the channel it
    names. *)
Lemma Handle_JoinChannel_newcomer channels_ channel_name rest i channel :
  String_Contains channel_name "#" = true →
  find_channel channels_ channel_name = Some (i, channel) →
  ChatChannel.Clients channel !! client = None →
  let joined :=
    ChatChannel.set_Clients
      (<[client := chat_user]> (ChatChannel.Clients channel)) channel in
  Handle server_ users channels_ client kChannelMessageType_JoinChannel
    (FString channel_name :: rest)
  = Returned true (<[i := joined]> channels_)
      ([SendUnicast client kComponentType_Channel
          kChannelMessageType_JoinChannel_Complete
          (([FUInt16 kChannelMessageResult_Ok;
             FUInt32 (N.of_nat (size (ChatChannel.Operators channel)) `mod` 2 ^ 32)]
            ++ user_fields users
                 (enabled_entries users (ChatChannel.Operators channel)))
           ++ [FUInt32 (N.of_nat (size (ChatChannel.Clients joined)) `mod` 2 ^ 32)]
           ++ user_fields users
                (enabled_entries users (ChatChannel.Clients joined)))]
       ++ send_to_enabled users (ChatChannel.Clients joined)
            kChannelMessageType_JoinChannel
            [FUInt16 kChannelMessageResult_UserJoined;
             FString (ChatUser.Username (users chat_user));
             FString (ChatUser.Hostname (users chat_user))]
       ++ [OnJoinCompleted kChannelMessageResult_Ok chat_user;
           OnChannelJoined joined chat_user]).
Proof.
  intros Hname Hfind Hmember joined.
  unfold Handle, Handle_JoinChannel. cbn [ReadString].
  rewrite Hcomponent, Huser, Hidentified, Hname, Hfind. cbn [negb].
  rewrite decide_False; cycle 1.
  { rewrite find_Clients_iff, Hmember. by intros [? ?]. }
  rewrite !write_enabled_users_spec.
  unfold WriteUInt32, WriteUInt16, CreateBuffer. cbn [app].
  by rewrite <- !app_assoc.
Qed.

(** X4: a Join answered Ok makes the joiner a member of the channel the lookup
    finds, before and after, and nothing more: the operators of that
    channel, its other members and every other entry of the directory stay
    as they were. *)
Theorem join_adds_one_member channels_ channel_name rest i channel :
  String_Contains channel_name "#" = true →
  find_channel channels_ channel_name = Some (i, channel) →
  ChatChannel.Clients channel !! client = None →
  ∃ channels' log joined,
    Handle server_ users channels_ client kChannelMessageType_JoinChannel
      (FString channel_name :: rest)
    = Returned true channels' log
    ∧ find_channel channels' channel_name = Some (i, joined)
    ∧ ChatChannel.Clients joined !! client = Some chat_user
    ∧ (∀ c, c ≠ client →
            ChatChannel.Clients joined !! c = ChatChannel.Clients channel !! c)
    ∧ ChatChannel.Operators joined = ChatChannel.Operators channel
    ∧ length channels' = length channels_
    ∧ ∀ j, j ≠ i → channels' !! j = channels_ !! j.
Proof.
  intros Hname Hfind Hmember.
  eexists _, _, _. split; [by apply Handle_JoinChannel_newcomer |].
  split_and!.
  - apply (find_channel_insert _ _ _ channel); [done | done |].
    by apply find_channel_Some in Hfind as (_ & ? & _).
  - apply lookup_insert_eq.
  - intros c Hc. by apply lookup_insert_ne.
  - done.
  - apply length_insert.
  - intros j Hj. by apply list_lookup_insert_ne.
Qed.

(** X5: the UserJoined notice of a Join answered Ok reaches every member whose
    user is enabled exactly once, the joiner included, and nobody else. *)
Theorem join_is_announced_once channels_ channel_name rest i channel c :
  String_Contains channel_name "#" = true →
  find_channel channels_ channel_name = Some (i, channel) →
  ChatChannel.Clients channel !! client = None →
  sent_to c kChannelMessageType_JoinChannel
    (outcome_log
       (Handle server_ users channels_ client kChannelMessageType_JoinChannel
          (FString channel_name :: rest)))
  = match <[client := chat_user]> (ChatChannel.Clients channel) !! c with
    | Some user =>
      if ChatUser.Enabled (users user)
      then [[FUInt16 kChannelMessageResult_UserJoined;
             FString (ChatUser.Username (users chat_user));
             FString (ChatUser.Hostname (users chat_user))]]
      else []
    | None => []
    end.
Proof.
  intros Hname Hfind Hmember.
  rewrite (Handle_JoinChannel_newcomer _ _ _ i channel) by done.
  cbn [outcome_log].
  rewrite !sent_to_app, sent_to_send_ne by (right; done).
  rewrite sent_to_send_to_enabled. cbn [sent_to omap app].
  by rewrite app_nil_r.
Qed.

End Joining.

(** ** What a request leaves alone *)

(** X8: a request changes at most the entry its lookup finds: every other
    entry of the directory (the channels of another name, the disabled
    ones, a later entry of the same name) is after the call what it was
    before, whatever the call does. *)
Theorem request_touches_one_entry server_ users channels_ client message_type
    channel_name rest j channel :
  channels_ !! j = Some channel →
  (∀ i found, find_channel channels_ channel_name = Some (i, found) → j ≠ i) →
  outcome_channels
    (Handle server_ users channels_ client message_type
       (FString channel_name :: rest)) !! j
  = Some channel.
Proof.
  intros Hj Hother.
  destruct message_type; try done;
    unfold Handle, Handle_JoinChannel, Handle_LeaveChannel; cbn [ReadString];
    (destruct (ChatServer.GetComponent_User server_) as [uc|]; [| done]);
    (destruct (UserComponent.GetChatUser uc client) as [chat_user|]; [| done]);
    (destruct (negb (ChatUser.Identified (users chat_user))); [done |]);
    (destruct (negb (String_Contains channel_name "#")); [done |]);
    (destruct (find_channel channels_ channel_name) as [[i found]|] eqn:Hfind;
       [specialize (Hother i found eq_refl) |]).
  - case_decide; [done |]. cbn [outcome_channels].
    by rewrite list_lookup_insert_ne.
  - cbn [outcome_channels]. by apply lookup_app_l_Some.
  - case_decide; [| done].
    cbn [ChatChannel.set_Clients ChatChannel.Clients].
    case_decide; cbn [outcome_channels]; by rewrite list_lookup_insert_ne.
  - done.
Qed.

(** ** Asking twice *)

Section Twice.
Variable server_ : ChatServer.t.
Variable users : Heap.
Variable user_component : UserComponent.t.
Variable client : Client.
Variable chat_user : UserPtr.
Hypothesis Hcomponent : ChatServer.GetComponent_User server_ = Some user_component.
Hypothesis Huser : UserComponent.GetChatUser user_component client = Some chat_user.
Hypothesis Hidentified : ChatUser.Identified (users chat_user) = true.

(** X9: after any Join with a valid name, whether it created the channel, was
    answered Ok or AlreadyInChannel, the same Join again is answered
    AlreadyInChannel and changes nothing. *)
Theorem join_again_is_already_in_channel channels_ channel_name rest rest' :
  String_Contains channel_name "#" = true →
  let joined :=
    outcome_channels
      (Handle server_ users channels_ client kChannelMessageType_JoinChannel
         (FString channel_name :: rest)) in
  Handle server_ users joined client kChannelMessageType_JoinChannel
    (FString channel_name :: rest')
  = Returned true joined
      [SendUnicast client kComponentType_Channel
         kChannelMessageType_JoinChannel_Complete
         [FUInt16 kChannelMessageResult_AlreadyInChannel];
       OnJoinCompleted kChannelMessageResult_AlreadyInChannel chat_user].
Proof.
  intros Hname joined.
  assert (∃ i channel, find_channel joined channel_name = Some (i, channel)
                       ∧ is_Some (ChatChannel.Clients channel !! client))
    as (i & channel & Hfind & Hmember).
  { subst joined. unfold Handle, Handle_JoinChannel. cbn [ReadString].
    rewrite Hcomponent, Huser, Hidentified, Hname. cbn [negb].
    destruct (find_channel channels_ channel_name) as [[i channel]|] eqn:Hfind.
    - case_decide as Hmember.
      + apply find_Clients_iff in Hmember. by exists i, channel.
      + cbn [outcome_channels]. eexists i, _. split.
        * apply (find_channel_insert _ _ _ channel); [done | done |].
          by apply find_channel_Some in Hfind as (_ & ? & _).
        * simpl. by rewrite lookup_insert_eq.
    - cbn [outcome_channels]. eexists _, _. split.
      + by apply find_channel_app_new.
      + simpl. by rewrite lookup_insert_eq. }
  unfold Handle, Handle_JoinChannel. cbn [ReadString].
  rewrite Hcomponent, Huser, Hidentified, Hname, Hfind. cbn [negb].
  by rewrite decide_True by by apply find_Clients_iff.
Qed.

(** X11: in a directory that operations lead to, a Join answered Ok followed by
    the Leave of the same connection gives back the very directory there
    was before the Join. *)
Theorem join_then_leave_restores channels_ channel_name rest rest' i channel :
  reachable channels_ →
  String_Contains channel_name "#" = true →
  find_channel channels_ channel_name = Some (i, channel) →
  ChatChannel.Clients channel !! client = None →
  ∃ log,
    Handle server_ users
      (outcome_channels
         (Handle server_ users channels_ client kChannelMessageType_JoinChannel
            (FString channel_name :: rest)))
      client kChannelMessageType_LeaveChannel (FString channel_name :: rest')
    = Returned true channels_ log.
Proof.
  intros Hreach Hname Hfind Hmember.
  pose proof Hfind as (Hi & Henabled & _)%find_channel_Some.
  apply reachable_well_formed in Hreach. rewrite Forall_forall in Hreach.
  destruct (Hreach channel) as (_ & _ & Hwf);
    [by eapply list_elem_of_lookup_2 |].
  destruct (Hwf Henabled) as [Hmembers Hsub].
  assert (ChatChannel.Operators channel !! client = None) as Hop
    by by eapply lookup_weaken_None.
  rewrite (Handle_JoinChannel_newcomer server_ users user_component client
             chat_user Hcomponent Huser Hidentified _ _ _ i channel) by done.
  cbn [outcome_channels].
  set (joined := ChatChannel.set_Clients _ channel).
  rewrite (Handle_LeaveChannel_member server_ users user_component client
             chat_user Hcomponent Huser Hidentified _ _ _ i joined); cycle 1.
  { done. }
  { by apply (find_channel_insert _ _ _ channel). }
  { subst joined. simpl. by rewrite lookup_insert_eq. }
  subst joined. cbn [ChatChannel.Clients ChatChannel.set_Clients
                     ChatChannel.Operators ChatChannel.Name ChatChannel.Enabled].
  rewrite delete_insert_id by done. rewrite decide_False by done.
  rewrite (delete_id _ _ Hop), list_insert_insert_eq.
  destruct channel as [name enabled ops clients].
  rewrite list_insert_id by done. eauto.
Qed.

(** X10: after a Leave answered Ok the requester is no longer in the channel:
    the same Leave again is answered NotInChannel and changes nothing. *)
Theorem leave_again_is_not_in_channel channels_ channel_name rest rest' i channel :
  String_Contains channel_name "#" = true →
  find_channel channels_ channel_name = Some (i, channel) →
  is_Some (ChatChannel.Clients channel !! client) →
  delete client (ChatChannel.Clients channel) ≠ ∅ →
  let left :=
    outcome_channels
      (Handle server_ users channels_ client kChannelMessageType_LeaveChannel
         (FString channel_name :: rest)) in
  Handle server_ users left client kChannelMessageType_LeaveChannel
    (FString channel_name :: rest')
  = Returned true left
      [SendUnicast client kComponentType_Channel
         kChannelMessageType_LeaveChannel_Complete
         [FUInt16 kChannelMessageResult_NotInChannel];
       OnLeaveCompleted kChannelMessageResult_NotInChannel chat_user].
Proof.
  intros Hname Hfind Hmember Hrest left. subst left.
  pose proof Hfind as (Hi & Henabled & Hn & _)%find_channel_Some.
  rewrite (Handle_LeaveChannel_member server_ users user_component client
             chat_user Hcomponent Huser Hidentified channels_ channel_name rest
             i channel) by done.
  cbn zeta. rewrite decide_False by done. cbn [outcome_channels].
  set (remaining := ChatChannel.Build _ _ _ _).
  assert (find_channel (<[i := remaining]> channels_) channel_name
          = Some (i, remaining)) as Hfind'
    by by apply (find_channel_insert _ _ _ channel).
  unfold Handle, Handle_LeaveChannel. cbn [ReadString].
  rewrite Hcomponent, Huser, Hidentified, Hname, Hfind'. cbn [negb].
  rewrite decide_False; [done |].
  rewrite find_Clients_iff. subst remaining. simpl.
  rewrite lookup_delete_eq. by intros [? ?].
Qed.

End Twice.

(** ** Where the calls fault *)

(** X12: [Handle] faults in one case only: a Leave of a resolved, identified
    user, with a valid channel name, who is the only member of the enabled
    channel of that name. *)
Theorem Handle_faults_iff server_ users channels_ client message_type buffer :
  (∃ channels' log,
     Handle server_ users channels_ client message_type buffer
     = NullDeref channels' log)
  ↔ message_type = kChannelMessageType_LeaveChannel
    ∧ ∃ channel_name rest user_component chat_user i channel,
        ReadString buffer = Some (channel_name, rest)
        ∧ ChatServer.GetComponent_User server_ = Some user_component
        ∧ UserComponent.GetChatUser user_component client = Some chat_user
        ∧ ChatUser.Identified (users chat_user) = true
        ∧ String_Contains channel_name "#" = true
        ∧ find_channel channels_ channel_name = Some (i, channel)
        ∧ only_member client channel.
Proof.
  split.
  - intros (channels' & log & H).
    destruct message_type; try discriminate H;
      unfold Handle, Handle_JoinChannel, Handle_LeaveChannel in H;
      (destruct (ReadString buffer) as [[channel_name rest]|];
         [| discriminate H]);
      (destruct (ChatServer.GetComponent_User server_) as [uc|];
         [| discriminate H]);
      (destruct (UserComponent.GetChatUser uc client) as [chat_user|] eqn:Hu;
         [| discriminate H]);
      (destruct (ChatUser.Identified (users chat_user)) eqn:Hid;
         [| discriminate H]);
      (destruct (String_Contains channel_name "#") eqn:Hname;
         [| discriminate H]);
      (destruct (find_channel channels_ channel_name) as [[i channel]|] eqn:Hfind;
         [| discriminate H]);
      cbn [negb] in H.
    + by case_decide.
    + case_decide as Hmember; [| discriminate H].
      apply find_Clients_iff in Hmember.
      cbn [ChatChannel.set_Clients ChatChannel.Clients] in H.
      case_decide as Hempty; [| discriminate H].
      split; [done |]. exists channel_name, rest, uc, chat_user, i, channel.
      split_and!; try done.
      by apply find_channel_Some in Hfind as (_ & ? & _).
  - intros (-> & name & rest & uc & chat_user & i & channel
            & Hread & Hc & Hu & Hid & Hname & Hfind & _ & Hmember & Hempty).
    destruct buffer as [|[| |s] buffer]; try discriminate Hread.
    injection Hread as -> ->.
    rewrite (Handle_LeaveChannel_member server_ users uc client chat_user
               Hc Hu Hid channels_ name rest i channel) by done.
    cbn zeta. rewrite decide_True by done. eauto.
Qed.

(** X13: the sweep stops at the first enabled channel whose only member is the
    disconnecting connection: the channels before it are swept, that one
    is emptied and disabled with its operators untouched, and the channels
    after it are not visited. *)
Theorem sweep_stops_at_first_emptied users client before channel after :
  Forall (leaves_someone client) before →
  only_member client channel →
  OnClientDisconnected users (before ++ channel :: after) client
  = NullDeref
      ((swept client <$> before)
       ++ ChatChannel.Build (ChatChannel.Name channel) false
            (ChatChannel.Operators channel) ∅
          :: after)
      ((before ≫= departure_notices users client)
       ++ departure_notices users client channel).
Proof.
  intros Hbefore (Henabled & [chat_user Hmember] & Hempty).
  unfold OnClientDisconnected.
  enough (∀ visited log,
    disconnect_loop users client visited (before ++ channel :: after) log
    = NullDeref
        (visited ++ (swept client <$> before)
         ++ ChatChannel.Build (ChatChannel.Name channel) false
              (ChatChannel.Operators channel) ∅
            :: after)
        (log ++ (before ≫= departure_notices users client)
         ++ departure_notices users client channel)) as H by apply (H [] []).
  induction Hbefore as [|first before Hfirst _ IH]; intros visited log.
  - cbn [app fmap list_fmap mbind list_bind disconnect_loop].
    unfold disconnect_from, departure_notices.
    rewrite Henabled, Hmember.
    cbn [ChatChannel.set_Clients ChatChannel.Clients].
    rewrite decide_True by done. unfold ChatChannel.set_Enabled. simpl.
    by rewrite Hempty.
  - cbn [app fmap list_fmap mbind list_bind disconnect_loop].
    rewrite disconnect_from_leaves_someone by done.
    rewrite IH. by rewrite <- !app_assoc.
Qed.

Lemma disconnect_from_done users client channel channel' log :
  disconnect_from users client channel = TurnDone channel' log →
  leaves_someone client channel.
Proof.
  unfold disconnect_from, leaves_someone. intros H Henabled [chat_user Hmember].
  rewrite Henabled, Hmember in H.
  cbn [ChatChannel.set_Clients ChatChannel.Clients] in H.
  by case_decide.
Qed.

Lemma disconnect_loop_returned users client visited ahead log channels' log' :
  disconnect_loop users client visited ahead log = Returned tt channels' log' →
  Forall (leaves_someone client) ahead.
Proof.
  revert visited log. induction ahead as [|channel ahead IH];
    intros visited log H; [done |].
  simpl in H.
  destruct (disconnect_from users client channel) as [c l|c l] eqn:Hturn;
    [| discriminate H].
  constructor; [by eapply disconnect_from_done | by eapply IH].
Qed.

(** X14: the sweep returns exactly when the disconnecting connection is the
    only member of no enabled channel. It has then left the members and
    the operators of every enabled channel, changed nothing else (no other
    connection's entry, no name, no channel's enabled flag), and sent the
    notices of the channels it was a member of. *)
Theorem sweep_returns_iff users channels_ client channels' log :
  OnClientDisconnected users channels_ client = Returned tt channels' log
  ↔ Forall (leaves_someone client) channels_
    ∧ channels' = swept client <$> channels_
    ∧ log = channels_ ≫= departure_notices users client.
Proof.
  split.
  - intros H. assert (Forall (leaves_someone client) channels_) as Hall
      by by eapply disconnect_loop_returned.
    rewrite OnClientDisconnected_returns in H by done.
    by injection H as <- <-.
  - intros (Hall & -> & ->). by apply OnClientDisconnected_returns.
Qed.

(** X15: a sweep that returns leaves the connection in no enabled channel,
    neither as a member nor as an operator, and every other connection
    where it was. *)
Theorem sweep_removes_the_connection users channels_ client channels' log :
  OnClientDisconnected users channels_ client = Returned tt channels' log →
  (∀ channel', channel' ∈ channels' → ChatChannel.Enabled channel' = true →
               absent_from client channel')
  ∧ ∀ i channel, channels_ !! i = Some channel →
      ∃ channel', channels' !! i = Some channel'
        ∧ ChatChannel.Name channel' = ChatChannel.Name channel
        ∧ ChatChannel.Enabled channel' = ChatChannel.Enabled channel
        ∧ ∀ c, c ≠ client →
            ChatChannel.Clients channel' !! c = ChatChannel.Clients channel !! c
            ∧ ChatChannel.Operators channel' !! c
              = ChatChannel.Operators channel !! c.
Proof.
  intros H. assert (Forall (leaves_someone client) channels_) as Hall
    by by eapply disconnect_loop_returned.
  rewrite OnClientDisconnected_returns in H by done. injection H as <- <-.
  split.
  - intros channel' (channel & -> & _)%list_elem_of_fmap. unfold swept.
    destruct (ChatChannel.Enabled channel) eqn:He; [| congruence]. intros _.
    split; simpl; apply lookup_delete_eq.
  - intros i channel Hi. exists (swept client channel).
    rewrite list_lookup_fmap, Hi. unfold swept.
    destruct channel as [name [|] ops clients]; simpl; split_and!; try done.
    intros c Hne. by rewrite !lookup_delete_ne.
Qed.

Lemma swept_absent client channel :
  (ChatChannel.Enabled channel = true → absent_from client channel) →
  swept client channel = channel ∧ leaves_someone client channel.
Proof.
  unfold swept, leaves_someone, absent_from. intros Habsent.
  destruct channel as [name [|] ops clients]; simpl in *; [| done].
  destruct (Habsent eq_refl) as [Hc Ho].
  split; [by rewrite !delete_id | ]. rewrite Hc. by intros _ [? ?].
Qed.

Lemma OnClientDisconnected_absent users channels_ client :
  Forall (λ channel, ChatChannel.Enabled channel = true →
                     absent_from client channel) channels_ →
  OnClientDisconnected users channels_ client = Returned tt channels_ [].
Proof.
  intros Hall. rewrite OnClientDisconnected_returns; cycle 1.
  { eapply Forall_impl; [done |]. intros channel H. by apply swept_absent. }
  f_equal.
  - induction Hall as [|channel l Habsent _ IH]; [done |].
    cbn [fmap list_fmap]. f_equal; [by apply swept_absent | done].
  - induction Hall as [|channel l Habsent _ IH]; [done |].
    cbn [mbind list_bind]. fold (l ≫= departure_notices users client).
    rewrite IH, app_nil_r. unfold departure_notices.
    destruct (ChatChannel.Enabled channel); [| done].
    by destruct (Habsent eq_refl) as [-> _].
Qed.

(** X17: the sweep for a connection that is in no enabled channel, neither as
    a member nor as an operator, sends nothing and changes nothing. *)
Theorem sweep_of_a_stranger_changes_nothing users channels_ client :
  (∀ channel, channel ∈ channels_ → ChatChannel.Enabled channel = true →
              absent_from client channel) →
  OnClientDisconnected users channels_ client = Returned tt channels_ [].
Proof.
  intros H. apply OnClientDisconnected_absent, Forall_forall. exact H.
Qed.

(** X18: a sweep that returns need not be repeated: the second one sends
    nothing and changes nothing. *)
Theorem sweep_twice_is_sweep_once users users' channels_ client channels' log :
  OnClientDisconnected users channels_ client = Returned tt channels' log →
  OnClientDisconnected users' channels' client = Returned tt channels' [].
Proof.
  intros H. assert (Forall (leaves_someone client) channels_) as Hall
    by by eapply disconnect_loop_returned.
  rewrite OnClientDisconnected_returns in H by done. injection H as <- <-.
  apply OnClientDisconnected_absent, Forall_forall.
  intros channel' (channel & -> & _)%list_elem_of_fmap. unfold swept.
  destruct (ChatChannel.Enabled channel) eqn:He; [| congruence]. intros _.
  split; simpl; apply lookup_delete_eq.
Qed.

(** ** One reply for each request *)

Ltac count_replies :=
  cbn [outcome_log]; unfold reply;
  rewrite ?sent_to_app;
  rewrite ?sent_to_send_eq, ?sent_to_send_ne by (right; done);
  rewrite ?sent_to_send_to_enabled_other by done;
  rewrite ?sent_to_send_ne by (left; done).

(** X7: a call that returns true has sent one reply, of the reply type of the
    request, to the requester and none to anybody else; a call that
    returns false has sent nothing and changed nothing; a call that faults
    has sent no reply. *)
Theorem every_request_has_one_reply server_ users channels_ client message_type
    buffer :
  match Handle server_ users channels_ client message_type buffer with
  | Returned true _ log =>
    length (sent_to client (reply_type message_type) log) = 1%nat
    ∧ ∀ c, c ≠ client → sent_to c (reply_type message_type) log = []
  | Returned false channels' log => channels' = channels_ ∧ log = []
  | NullDeref _ log => ∀ c, sent_to c (reply_type message_type) log = []
  end.
Proof.
  destruct message_type; try done;
    unfold Handle, Handle_JoinChannel, Handle_LeaveChannel; cbn [reply_type];
    (destruct (ReadString buffer) as [[channel_name rest]|]; [| done]);
    (destruct (ChatServer.GetComponent_User server_) as [uc|]; [| done]);
    (destruct (UserComponent.GetChatUser uc client) as [chat_user|]; [| done]);
    (destruct (negb (ChatUser.Identified (users chat_user)));
       [split; [| intros c Hc]; by count_replies |]);
    (destruct (negb (String_Contains channel_name "#"));
       [split; [| intros c Hc]; by count_replies |]);
    (destruct (find_channel channels_ channel_name) as [[i channel]|];
       [| split; [| intros c Hc]; by count_replies]).
  - case_decide; split; try intros c Hc; by count_replies.
  - case_decide; [| split; [| intros c Hc]; by count_replies].
    cbn [ChatChannel.set_Clients ChatChannel.Clients].
    case_decide.
    + intros c. by count_replies.
    + split; [| intros c Hc]; by count_replies.
Qed.

(** X6: the UserLeft notice of a Leave by a member reaches every member whose
    user is enabled exactly once, the leaving one included, and nobody
    else; so it does when the Leave then faults. *)
Theorem leave_is_announced_once server_ users user_component channels_ client
    chat_user channel_name rest i channel c :
  ChatServer.GetComponent_User server_ = Some user_component →
  UserComponent.GetChatUser user_component client = Some chat_user →
  ChatUser.Identified (users chat_user) = true →
  String_Contains channel_name "#" = true →
  find_channel channels_ channel_name = Some (i, channel) →
  is_Some (ChatChannel.Clients channel !! client) →
  sent_to c kChannelMessageType_LeaveChannel
    (outcome_log
       (Handle server_ users channels_ client kChannelMessageType_LeaveChannel
          (FString channel_name :: rest)))
  = match ChatChannel.Clients channel !! c with
    | Some user =>
      if ChatUser.Enabled (users user)
      then [[FUInt16 kChannelMessageResult_UserLeft;
             FString (ChatUser.Username (users chat_user));
             FString (ChatUser.Hostname (users chat_user))]]
      else []
    | None => []
    end.
Proof.
  intros Hcomponent Huser Hidentified Hname Hfind Hmember.
  rewrite (Handle_LeaveChannel_member server_ users user_component client
             chat_user Hcomponent Huser Hidentified channels_ channel_name rest
             i channel) by done.
  cbn zeta. case_decide; cbn [outcome_log];
    rewrite !sent_to_app, sent_to_send_to_enabled;
    rewrite ?sent_to_send_ne by (right; done);
    cbn [sent_to omap app]; unfold copies; by rewrite ?app_nil_r.
Qed.

(** X16: the notices of a sweep that returns: in each enabled channel the
    connection was a member of, every member whose user is enabled is sent
    one UserLeft notice with the identity the channel had for the
    connection; the loop does not skip the disconnecting connection, which
    is sent its own notice while its user is enabled. *)
Theorem sweep_is_announced_once users channels_ client channels' log c :
  OnClientDisconnected users channels_ client = Returned tt channels' log →
  sent_to c kChannelMessageType_LeaveChannel log
  = channels_ ≫= λ channel,
      if ChatChannel.Enabled channel then
        match ChatChannel.Clients channel !! client with
        | Some chat_user =>
          match ChatChannel.Clients channel !! c with
          | Some user =>
            if ChatUser.Enabled (users user)
            then [[FUInt16 kChannelMessageResult_UserLeft;
                   FString (ChatUser.Username (users chat_user));
                   FString (ChatUser.Hostname (users chat_user))]]
            else []
          | None => []
          end
        | None => []
        end
      else [].
Proof.
  intros H. assert (Forall (leaves_someone client) channels_) as Hall
    by by eapply disconnect_loop_returned.
  rewrite OnClientDisconnected_returns in H by done. injection H as <- <-.
  clear Hall. induction channels_ as [|channel channels_ IH]; [done |].
  cbn [mbind list_bind]. rewrite sent_to_app. f_equal; [| exact IH].
  unfold departure_notices.
  destruct (ChatChannel.Enabled channel); [| done].
  destruct (ChatChannel.Clients channel !! client) as [chat_user|]; [| done].
  rewrite sent_to_app, sent_to_send_to_enabled. cbn [sent_to omap].
  by rewrite app_nil_r.
Qed.

(** ** The further theorems at the scenarios *)

Lemma A_alone_is : Scenario.A_alone = [Guests.general_A].
Proof. vm_compute. reflexivity. Qed.

Lemma A_and_B_is : Guests.A_and_B = [Guests.general_AB].
Proof. vm_compute. reflexivity. Qed.

Lemma A_in_two_is : Scenario.A_in_two = [Guests.lobby_A; Guests.general_AB].
Proof. vm_compute. reflexivity. Qed.

Lemma A_and_B_reachable : reachable Guests.A_and_B.
Proof.
  unfold Guests.A_and_B, Scenario.A_alone.
  do 2 apply reachable_run. apply reachable_start.
Qed.

Lemma general_AB_in : Guests.general_AB ∈ Guests.A_and_B.
Proof. rewrite A_and_B_is. apply list_elem_of_singleton. reflexivity. Qed.

Lemma enabled_channel_has_a_member_witness :
  reachable Guests.A_and_B
  ∧ Guests.general_AB ∈ Guests.A_and_B
  ∧ ChatChannel.Clients Guests.general_AB ≠ ∅.
Proof.
  split_and!; [apply A_and_B_reachable | apply general_AB_in |].
  apply (enabled_channel_has_a_member Guests.A_and_B Guests.general_AB
           A_and_B_reachable general_AB_in eq_refl).
Defined.

Lemma channel_names_have_a_hash_witness :
  String_Contains (ChatChannel.Name Guests.general_AB) "#" = true.
Proof.
  apply (channel_names_have_a_hash Guests.A_and_B Guests.general_AB
           A_and_B_reachable general_AB_in).
Defined.

Lemma at_most_one_operator_witness :
  (size (ChatChannel.Operators Guests.general_AB) ≤ 1)%nat.
Proof.
  apply (at_most_one_operator Guests.A_and_B Guests.general_AB
           A_and_B_reachable general_AB_in).
Defined.

Lemma operators_are_members_witness :
  ChatChannel.Operators Guests.general_AB !! Scenario.A = Some Scenario.user_A
  ∧ ChatChannel.Clients Guests.general_AB !! Scenario.A = Some Scenario.user_A.
Proof.
  split; [vm_compute; reflexivity |].
  apply (operators_are_members Guests.A_and_B Guests.general_AB Scenario.A
           Scenario.user_A A_and_B_reachable general_AB_in eq_refl).
  vm_compute. reflexivity.
Defined.

Lemma disabled_entry_is_frozen_witness :
  run (Scenario.join Scenario.A "#general") Guests.closed_general !! 0%nat
  = Some (ChatChannel.Build "#general" false
            {[Scenario.A := Scenario.user_A]} {[Scenario.A := Scenario.user_A]}).
Proof.
  apply (disabled_entry_is_frozen (Scenario.join Scenario.A "#general")
           Guests.closed_general 0%nat); reflexivity.
Defined.

Lemma join_adds_one_member_witness :
  ∃ channels' log joined,
    Handle Scenario.server Scenario.users [Guests.general_A] Scenario.B
      kChannelMessageType_JoinChannel [FString "#general"]
    = Returned true channels' log
    ∧ find_channel channels' "#general" = Some (0%nat, joined)
    ∧ ChatChannel.Clients joined !! Scenario.B = Some Scenario.user_B
    ∧ (∀ c, c ≠ Scenario.B →
            ChatChannel.Clients joined !! c
            = ChatChannel.Clients Guests.general_A !! c)
    ∧ ChatChannel.Operators joined = ChatChannel.Operators Guests.general_A
    ∧ length channels' = length [Guests.general_A]
    ∧ ∀ j, j ≠ 0%nat → channels' !! j = [Guests.general_A] !! j.
Proof.
  apply (join_adds_one_member Scenario.server Scenario.users
           Scenario.user_component Scenario.B Scenario.user_B
           eq_refl eq_refl eq_refl [Guests.general_A] "#general" [] 0%nat
           Guests.general_A);
    vm_compute; reflexivity.
Defined.

Lemma join_is_announced_once_witness :
  sent_to Scenario.A kChannelMessageType_JoinChannel
    (outcome_log
       (Handle Scenario.server Scenario.users [Guests.general_A] Scenario.B
          kChannelMessageType_JoinChannel [FString "#general"]))
  = match <[Scenario.B := Scenario.user_B]>
            (ChatChannel.Clients Guests.general_A) !! Scenario.A with
    | Some user =>
      if ChatUser.Enabled (Scenario.users user)
      then [[FUInt16 kChannelMessageResult_UserJoined;
             FString (ChatUser.Username (Scenario.users Scenario.user_B));
             FString (ChatUser.Hostname (Scenario.users Scenario.user_B))]]
      else []
    | None => []
    end.
Proof.
  apply (join_is_announced_once Scenario.server Scenario.users
           Scenario.user_component Scenario.B Scenario.user_B
           eq_refl eq_refl eq_refl [Guests.general_A] "#general" [] 0%nat
           Guests.general_A Scenario.A);
    vm_compute; reflexivity.
Defined.

Lemma request_touches_one_entry_witness :
  outcome_channels
    (Handle Scenario.server Scenario.users [Guests.lobby_A; Guests.general_AB]
       Scenario.B kChannelMessageType_LeaveChannel [FString "#general"])
    !! 0%nat
  = Some Guests.lobby_A.
Proof.
  apply (request_touches_one_entry Scenario.server Scenario.users
           [Guests.lobby_A; Guests.general_AB] Scenario.B
           kChannelMessageType_LeaveChannel "#general" [] 0%nat Guests.lobby_A
           eq_refl).
  intros i found Hfind. vm_compute in Hfind. by injection Hfind as <- _.
Defined.

Lemma join_again_is_already_in_channel_witness :
  let joined :=
    outcome_channels
      (Handle Scenario.server Scenario.users [] Scenario.A
         kChannelMessageType_JoinChannel [FString "#general"]) in
  Handle Scenario.server Scenario.users joined Scenario.A
    kChannelMessageType_JoinChannel [FString "#general"]
  = Returned true joined
      [SendUnicast Scenario.A kComponentType_Channel
         kChannelMessageType_JoinChannel_Complete
         [FUInt16 kChannelMessageResult_AlreadyInChannel];
       OnJoinCompleted kChannelMessageResult_AlreadyInChannel Scenario.user_A].
Proof.
  apply (join_again_is_already_in_channel Scenario.server Scenario.users
           Scenario.user_component Scenario.A Scenario.user_A
           eq_refl eq_refl eq_refl [] "#general" [] [] eq_refl).
Defined.

Lemma join_then_leave_restores_witness :
  ∃ log,
    Handle Scenario.server Scenario.users
      (outcome_channels
         (Handle Scenario.server Scenario.users Scenario.A_alone Scenario.B
            kChannelMessageType_JoinChannel [FString "#general"]))
      Scenario.B kChannelMessageType_LeaveChannel [FString "#general"]
    = Returned true Scenario.A_alone log.
Proof.
  apply (join_then_leave_restores Scenario.server Scenario.users
           Scenario.user_component Scenario.B Scenario.user_B
           eq_refl eq_refl eq_refl Scenario.A_alone "#general" [] [] 0%nat
           Guests.general_A).
  - unfold Scenario.A_alone. apply reachable_run, reachable_start.
  - reflexivity.
  - vm_compute. reflexivity.
  - vm_compute. reflexivity.
Defined.

Lemma leave_again_is_not_in_channel_witness :
  let left :=
    outcome_channels
      (Handle Scenario.server Scenario.users [Guests.general_AB] Scenario.B
         kChannelMessageType_LeaveChannel [FString "#general"]) in
  Handle Scenario.server Scenario.users left Scenario.B
    kChannelMessageType_LeaveChannel [FString "#general"]
  = Returned true left
      [SendUnicast Scenario.B kComponentType_Channel
         kChannelMessageType_LeaveChannel_Complete
         [FUInt16 kChannelMessageResult_NotInChannel];
       OnLeaveCompleted kChannelMessageResult_NotInChannel Scenario.user_B].
Proof.
  apply (leave_again_is_not_in_channel Scenario.server Scenario.users
           Scenario.user_component Scenario.B Scenario.user_B
           eq_refl eq_refl eq_refl [Guests.general_AB] "#general" [] [] 0%nat
           Guests.general_AB).
  - reflexivity.
  - vm_compute. reflexivity.
  - vm_compute. eauto.
  - vm_compute. discriminate.
Defined.

Lemma sweep_stops_at_first_emptied_witness :
  OnClientDisconnected Scenario.users
    ([Guests.general_AB] ++ Guests.lobby_A :: [Guests.general_AB]) Scenario.A
  = NullDeref
      ((swept Scenario.A <$> [Guests.general_AB])
       ++ ChatChannel.Build (ChatChannel.Name Guests.lobby_A) false
            (ChatChannel.Operators Guests.lobby_A) ∅
          :: [Guests.general_AB])
      (([Guests.general_AB] ≫= departure_notices Scenario.users Scenario.A)
       ++ departure_notices Scenario.users Scenario.A Guests.lobby_A).
Proof.
  apply (sweep_stops_at_first_emptied Scenario.users Scenario.A
           [Guests.general_AB] Guests.lobby_A [Guests.general_AB]).
  - constructor; [| constructor]. intros _ _. vm_compute. discriminate.
  - split_and!; [reflexivity | vm_compute; eauto | vm_compute; reflexivity].
Defined.

Lemma sweep_removes_the_connection_witness :
  (∀ channel', channel' ∈ swept Scenario.B <$> [Guests.general_AB] →
               ChatChannel.Enabled channel' = true →
               absent_from Scenario.B channel')
  ∧ ∀ i channel, [Guests.general_AB] !! i = Some channel →
      ∃ channel', (swept Scenario.B <$> [Guests.general_AB]) !! i = Some channel'
        ∧ ChatChannel.Name channel' = ChatChannel.Name channel
        ∧ ChatChannel.Enabled channel' = ChatChannel.Enabled channel
        ∧ ∀ c, c ≠ Scenario.B →
            ChatChannel.Clients channel' !! c = ChatChannel.Clients channel !! c
            ∧ ChatChannel.Operators channel' !! c
              = ChatChannel.Operators channel !! c.
Proof.
  apply (sweep_removes_the_connection Scenario.users [Guests.general_AB]
           Scenario.B (swept Scenario.B <$> [Guests.general_AB])
           ([Guests.general_AB] ≫= departure_notices Scenario.users Scenario.B)).
  vm_compute. reflexivity.
Defined.

Lemma sweep_of_a_stranger_changes_nothing_witness :
  OnClientDisconnected Scenario.users [Guests.general_A] Scenario.B
  = Returned tt [Guests.general_A] [].
Proof.
  apply (sweep_of_a_stranger_changes_nothing Scenario.users [Guests.general_A]
           Scenario.B).
  intros channel Hin%list_elem_of_singleton _. subst channel.
  split; vm_compute; reflexivity.
Defined.

Lemma sweep_twice_is_sweep_once_witness :
  OnClientDisconnected Scenario.users_A_disabled
    (swept Scenario.B <$> [Guests.general_AB]) Scenario.B
  = Returned tt (swept Scenario.B <$> [Guests.general_AB]) [].
Proof.
  apply (sweep_twice_is_sweep_once Scenario.users Scenario.users_A_disabled
           [Guests.general_AB] Scenario.B
           (swept Scenario.B <$> [Guests.general_AB])
           ([Guests.general_AB] ≫= departure_notices Scenario.users Scenario.B)).
  vm_compute. reflexivity.
Defined.

Lemma leave_is_announced_once_witness :
  sent_to Scenario.B kChannelMessageType_LeaveChannel
    (outcome_log
       (Handle Scenario.server Scenario.users [Guests.general_AB] Scenario.B
          kChannelMessageType_LeaveChannel [FString "#general"]))
  = match ChatChannel.Clients Guests.general_AB !! Scenario.B with
    | Some user =>
      if ChatUser.Enabled (Scenario.users user)
      then [[FUInt16 kChannelMessageResult_UserLeft;
             FString (ChatUser.Username (Scenario.users Scenario.user_B));
             FString (ChatUser.Hostname (Scenario.users Scenario.user_B))]]
      else []
    | None => []
    end.
Proof.
  apply (leave_is_announced_once Scenario.server Scenario.users
           Scenario.user_component [Guests.general_AB] Scenario.B
           Scenario.user_B "#general" [] 0%nat Guests.general_AB Scenario.B);
    try reflexivity; vm_compute; eauto.
Defined.

Lemma sweep_is_announced_once_witness :
  sent_to Scenario.B kChannelMessageType_LeaveChannel
    ([Guests.general_AB] ≫= departure_notices Scenario.users Scenario.B)
  = [Guests.general_AB] ≫= λ channel,
      if ChatChannel.Enabled channel then
        match ChatChannel.Clients channel !! Scenario.B with
        | Some chat_user =>
          match ChatChannel.Clients channel !! Scenario.B with
          | Some user =>
            if ChatUser.Enabled (Scenario.users user)
            then [[FUInt16 kChannelMessageResult_UserLeft;
                   FString (ChatUser.Username (Scenario.users chat_user));
                   FString (ChatUser.Hostname (Scenario.users chat_user))]]
            else []
          | None => []
          end
        | None => []
        end
      else [].
Proof.
  apply (sweep_is_announced_once Scenario.users [Guests.general_AB] Scenario.B
           (swept Scenario.B <$> [Guests.general_AB])
           ([Guests.general_AB] ≫= departure_notices Scenario.users Scenario.B)
           Scenario.B).
  vm_compute. reflexivity.
Defined.
